(** * gordo_components.pipeline_translator.pipeline_from_definition

    A shallow embedding of [pipeline_from_definition], [_build_branch] and
    [_build_step], and the properties of the translation from a decoded
    definition (nested mappings, sequences and strings) to an object graph.

    The embedding follows the Python source:
    - a decoded value is a [val]; a [dict] is an association list in
      insertion order, keyed by strings;
    - [pydoc.locate] and the constructors of the located classes are the two
      collaborators of the translator; they are section variables;
    - the source assigns into the parameter mapping it was given
      ([params['steps'] = ...]).  The definition is a tree owned by the
      caller, so every call returns, next to its result, the state in which
      it leaves the object it was applied to ([after]);
    - every call also returns the list of registry lookups and constructor
      invocations it made ([trace]), in the order the source makes them;
    - a Python exception is a [Raise]; [logger.debug] has no effect on the
      values and is left out. *)

From Stdlib Require Import List String Ascii ZArith Bool Arith Lia.
From Stdlib Require Import DecimalString DecimalNat DecimalFacts FinFun.
Import ListNotations.
Local Open Scope string_scope.
Local Open Scope list_scope.

Set Implicit Arguments.

(** ** Values *)

(** The classes [pydoc.locate] can return.  The source singles out
    [sklearn.pipeline.Pipeline] and [sklearn.pipeline.FeatureUnion]; every
    other class is an [Estimator], named by its import path. *)
Inductive cls : Type :=
| Pipeline
| FeatureUnion
| Estimator (path : string).

Unset Elimination Schemes.

(** Python values met by the translator: what a decoder yields (None,
    booleans, integers, floats, strings, lists, dicts), tuples, and the
    instances the constructors return.  [VFloat m e] is the float [m * 2^e];
    [VObj c args kwargs] is an instance of [c] recording what it was built
    from.  The translator looks inside neither: an instance is taken to
    support none of membership, subscript, iteration and unpacking. *)
Inductive val : Type :=
| VNone
| VBool (b : bool)
| VInt (z : Z)
| VFloat (m e : Z)
| VStr (s : string)
| VList (l : list val)
| VTuple (l : list val)
| VDict (d : list (string * val))
| VObj (c : cls) (args : list val) (kwargs : list (string * val)).

Set Elimination Schemes.

Definition dict : Type := list (string * val).

(** [type(v)] *)
Inductive pytype : Type :=
| NoneType
| bool_t
| int_t
| float_t
| str_t
| list_t
| tuple_t
| dict_t
| instance_of (c : cls).

Definition type_of (v : val) : pytype :=
  match v with
  | VNone => NoneType
  | VBool _ => bool_t
  | VInt _ => int_t
  | VFloat _ _ => float_t
  | VStr _ => str_t
  | VList _ => list_t
  | VTuple _ => tuple_t
  | VDict _ => dict_t
  | VObj c _ _ => instance_of c
  end.

(** ** Exceptions *)

(** The three [ValueError]s the source raises, with what their message
    reports. *)
Inductive message : Type :=
| SingleKeyExpected (keys : list string)
    (* "Step should have a single key, found multiple: {step.keys()}" *)
| InvalidParameters (StepClass : option cls) (params : val)
    (* "Got {StepClass} but the supplied parametersseem invalid: {params}" *)
| StringOrDictExpected (found : pytype).
    (* "Expected step to be either a string or a dict,found: {type(step)}" *)

(** The [TypeError]s the interpreter raises on the operations of the source. *)
Inductive type_error : Type :=
| NotCallable                      (* calling the None that locate returned *)
| KwargsNotMapping (t : pytype)    (* keyword unpacking of a non-mapping *)
| NotIterable (t : pytype)         (* enumerate(x) or [k in x] on a scalar *)
| BadSubscript (t : pytype)        (* x['steps'], x a list, tuple or str *)
| NotSubscriptable (t : pytype).   (* x['steps'], x a scalar *)

Inductive exn : Type :=
| ValueError (m : message)
| TypeError (t : type_error)
| KeyError (key : string)          (* d[key], key not in d *)
| ConstructorError (e : string).   (* raised inside a located constructor *)

Inductive result (A : Type) : Type :=
| Ok (a : A)
| Raise (e : exn).

Arguments Ok {A} a.
Arguments Raise {A} e.

(** What a constructor call does: it returns an instance or raises. *)
Inductive built : Type :=
| Instance (o : val)
| Raised (e : string).

(** ** Observable events and runs *)

Inductive event : Type :=
| Locate (import_str : string)
| Call (StepClass : cls) (args : list val) (kwargs : dict).

Definition is_call (e : event) : bool :=
  match e with
  | Call _ _ _ => true
  | Locate _ => false
  end.

(** A run of a function on an object of type [S]: the state the object is
    left in, the events of the run, and the value returned or the exception
    raised. *)
Record run (S A : Type) : Type := Run {
  after : S;
  trace : list event;
  res : result A
}.

Arguments Run {S A} after trace res.

(** ** Dictionaries, strings and membership *)

Definition keys (d : dict) : list string := map fst d.

(** [d.get(key)] *)
Fixpoint dict_get (key : string) (d : dict) : option val :=
  match d with
  | [] => None
  | (k, v) :: rest => if String.eqb k key then Some v else dict_get key rest
  end.

(** [d.get(key, default)] *)
Definition dict_get_default (key : string) (default : val) (d : dict) : val :=
  match dict_get key d with
  | Some v => v
  | None => default
  end.

(** [d[key] = v]: the entry keeps its place, a new key goes last. *)
Fixpoint dict_set (key : string) (v : val) (d : dict) : dict :=
  match d with
  | [] => [(key, v)]
  | (k, w) :: rest =>
      if String.eqb k key then (k, v) :: rest else (k, w) :: dict_set key v rest
  end.

Definition dict_has (key : string) (d : dict) : bool :=
  match dict_get key d with
  | Some _ => true
  | None => false
  end.

(** [x[key] = v] on a dict [x]; the source reaches the assignment only
    after the subscript [x[key]] has been read from a dict. *)
Definition setitem (x : val) (key : string) (v : val) : val :=
  match x with
  | VDict d => VDict (dict_set key v d)
  | _ => x
  end.

(** [x == key] for a string [key]: only an equal string is equal to it. *)
Definition eq_str (key : string) (x : val) : bool :=
  match x with
  | VStr s => String.eqb s key
  | _ => false
  end.

(** [key in s] for strings: [key] occurs in [s]. *)
Definition occurs (key s : string) : bool :=
  match String.index 0 key s with
  | Some _ => true
  | None => false
  end.

(** [key in x] *)
Definition py_in (key : string) (x : val) : result bool :=
  match x with
  | VDict d => Ok (dict_has key d)
  | VList l | VTuple l => Ok (existsb (eq_str key) l)
  | VStr s => Ok (occurs key s)
  | _ => Raise (TypeError (NotIterable (type_of x)))
  end.

(** [isinstance(x, obj) for obj in (tuple, list)] *)
Definition is_sequence (x : val) : bool :=
  match x with
  | VList _ | VTuple _ => true
  | _ => false
  end.

(** Iterating over a string yields its characters as strings. *)
Fixpoint chars (s : string) : list string :=
  match s with
  | EmptyString => []
  | String a rest => String a EmptyString :: chars rest
  end.

(** [f'step_{i}'] *)
Definition label (i : nat) : string :=
  "step_" ++ NilZero.string_of_uint (Nat.to_uint i).

(** The pair [(f'step_{i}', o)] *)
Definition labeled (i : nat) (o : val) : val := VTuple [VStr (label i); o].

(** [StepClass == obj for obj in [FeatureUnion, Pipeline]] *)
Definition is_container (StepClass : option cls) : bool :=
  match StepClass with
  | Some FeatureUnion | Some Pipeline => true
  | _ => false
  end.

(** ** The translator *)

(** What the caller of a constructor gets from what the constructor did. *)
Definition returned (b : built) : result val :=
  match b with
  | Instance o => Ok o
  | Raised e => Raise (ConstructorError e)
  end.

Section Translator.

(** [pydoc.locate]: the class at an import path, or [None]. *)
Variable locate : string -> option cls.

(** Calling a located class with positional and keyword arguments. *)
Variable construct : cls -> list val -> dict -> built.

(** Calling [StepClass], which is what [locate] returned, with positional
    arguments [args] and keyword arguments [kwargs]. *)
Definition call (StepClass : option cls) (args : list val) (kwargs : dict)
  : list event * result val :=
  match StepClass with
  | None => ([], Raise (TypeError NotCallable))
  | Some c => ([Call c args kwargs], returned (construct c args kwargs))
  end.

(** Calling [StepClass] on the unpacked [params] (source line 121): what
    is unpacked must be a mapping, whatever is called. *)
Definition call_unpacked (StepClass : option cls) (params : val)
  : list event * result val :=
  match params with
  | VDict kwargs => call StepClass [] kwargs
  | _ => ([], Raise (TypeError (KwargsNotMapping (type_of params))))
  end.

(** [_build_step] on a string (source lines 125-127). *)
Definition build_name (step : string) : run string val :=
  let StepClass := locate step in
  let (ev, r) := call StepClass [] [] in
  Run step (Locate step :: ev) r.

Section Branch.

Context {X : Type}.
Variable build : X -> run X val.

(** [[(f'step_{i}', build(step)) for i, step in enumerate(definition)]],
    counting from [i].  The first exception ends the comprehension; what
    the earlier calls did to their steps stays done. *)
Fixpoint comprehension (i : nat) (definition : list X)
  : run (list X) (list val) :=
  match definition with
  | [] => Run [] [] (Ok [])
  | step :: rest =>
      let r := build step in
      match res r with
      | Raise e => Run (after r :: rest) (trace r) (Raise e)
      | Ok o =>
          let rs := comprehension (S i) rest in
          Run (after r :: after rs) (trace r ++ trace rs)
              match res rs with
              | Ok os => Ok (labeled i o :: os)
              | Raise e => Raise e
              end
      end
  end.

End Branch.

Section BranchOf.

(** The step builder [_build_branch] calls back. *)
Variable build : val -> run val val.

(** The comprehension of [_build_branch] over whatever [definition] is:
    the items of a list or tuple, the characters of a string, the keys
    of a dict; anything else cannot be enumerated. *)
Definition enumerate_steps (definition : val) : run val (list val) :=
  match definition with
  | VList l =>
      let r := comprehension build 0 l in
      Run (VList (after r)) (trace r) (res r)
  | VTuple l =>
      let r := comprehension build 0 l in
      Run (VTuple (after r)) (trace r) (res r)
  | VStr s =>
      let r := comprehension build_name 0 (chars s) in
      Run definition (trace r) (res r)
  | VDict d =>
      let r := comprehension build_name 0 (keys d) in
      Run definition (trace r) (res r)
  | _ =>
      Run definition [] (Raise (TypeError (NotIterable (type_of definition))))
  end.

(** [_build_branch] (source lines 51-59), over the step builder. *)
Definition build_branch_with (definition : val) (constructor_class : option cls)
  : run val val :=
  let steps := enumerate_steps definition in
  match res steps with
  | Raise e => Run (after steps) (trace steps) (Raise e)
  | Ok ss =>
      match constructor_class with
      | None => Run (after steps) (trace steps) (Ok (VList ss))
      | Some c =>
          let (ev, r) := call (Some c) [VList ss] [] in
          Run (after steps) (trace steps ++ ev) r
      end
  end.

(** [_build_branch(params[key], None)] for a dict [params] that has [key]. *)
Fixpoint branch_at (key : string) (params : dict) : option (run val val) :=
  match params with
  | [] => None
  | (k, v) :: rest =>
      if String.eqb k key then Some (build_branch_with v None)
      else branch_at key rest
  end.

(** [_build_branch(params[key], None)] for any [params]: the subscript
    [params[key]] comes first, and raises on what is not a dict. *)
Definition branch_of_item (key : string) (params : val)
  : result (run val val) :=
  match params with
  | VDict pd =>
      match branch_at key pd with
      | Some r => Ok r
      | None => Raise (KeyError key)
      end
  | VList _ | VTuple _ | VStr _ =>
      Raise (TypeError (BadSubscript (type_of params)))
  | _ => Raise (TypeError (NotSubscriptable (type_of params)))
  end.

End BranchOf.

(** [_build_step] (source lines 62-131). *)
Fixpoint _build_step (step : val) : run val val :=
  match step with
  | VDict d =>
      match d with
      | [(import_str, params)] =>
          (* import_str = list(step.keys())[0]
             params = step.get(import_str, dict()): the value under the only
             key, see [get_only_key] *)
          let StepClass := locate import_str in
          (* raise e, with params as they are by then *)
          let stop (params : val) (tr : list event) (e : exn) :=
            Run (VDict [(import_str, params)]) (Locate import_str :: tr)
                (Raise e) in
          (* return StepClass( **params ) *)
          let unpack (params : val) (tr : list event) :=
            let (ev, out) := call_unpacked StepClass params in
            Run (VDict [(import_str, params)]) (Locate import_str :: tr ++ ev)
                out in
          (* params[key] = _build_branch(params[key], None), then line 121 *)
          let assign (key : string) :=
            match branch_of_item _build_step key params with
            | Raise e => stop params [] e
            | Ok r =>
                match res r with
                | Raise e => stop (setitem params key (after r)) (trace r) e
                | Ok steps => unpack (setitem params key steps) (trace r)
                end
            end in
          if is_container StepClass then
            match py_in "transformer_list" params with
            | Raise e => stop params [] e
            | Ok true => assign "transformer_list"
            | Ok false =>
                match py_in "steps" params with
                | Raise e => stop params [] e
                | Ok true => assign "steps"
                | Ok false =>
                    if is_sequence params then
                      (* return StepClass(_build_branch(params, None)) *)
                      let r := build_branch_with _build_step params None in
                      match res r with
                      | Raise e => stop (after r) (trace r) e
                      | Ok steps =>
                          let (ev, out) := call StepClass [steps] [] in
                          Run (VDict [(import_str, after r)])
                              (Locate import_str :: trace r ++ ev) out
                      end
                    else
                      stop params []
                        (ValueError (InvalidParameters StepClass params))
                end
            end
          else unpack params []
      | _ => Run step [] (Raise (ValueError (SingleKeyExpected (keys d))))
      end
  | VStr s =>
      let r := build_name s in
      Run step (trace r) (res r)
  | _ => Run step [] (Raise (ValueError (StringOrDictExpected (type_of step))))
  end.

(** [_build_branch] (source lines 51-59).  [constructor_class] is the
    argument the caller passes: [None] or a class; every call of the source
    passes it. *)
Definition _build_branch (definition : val) (constructor_class : option cls)
  : run val val :=
  build_branch_with _build_step definition constructor_class.

(** [pipeline_from_definition] (source line 48) *)
Definition pipeline_from_definition (pipe_definition : val) : run val val :=
  _build_step pipe_definition.

End Translator.

(** ** A registry to run the translator on

    [locate] finds the two containers and the estimators of scikit-learn
    under their import paths and nothing else; a constructor returns the
    instance that records its class and arguments. *)
Module Demo.

Definition locate (import_str : string) : option cls :=
  if String.eqb import_str "sklearn.pipeline.Pipeline" then Some Pipeline
  else if String.eqb import_str "sklearn.pipeline.FeatureUnion"
       then Some FeatureUnion
  else if String.prefix "sklearn." import_str then Some (Estimator import_str)
  else None.

Definition construct (c : cls) (args : list val) (kwargs : dict) : built :=
  Instance (VObj c args kwargs).

Definition translate : val -> run val val :=
  pipeline_from_definition locate construct.

Definition PCA : string := "sklearn.decomposition.PCA".
Definition MinMaxScaler : string := "sklearn.preprocessing.MinMaxScaler".
Definition TruncatedSVD : string := "sklearn.decomposition.TruncatedSVD".

(** The definition of the docstring of [pipeline_from_definition], with the
    parameters of the last step as a mapping. *)
Definition docstring_config : val :=
  VDict [("sklearn.pipeline.Pipeline", VDict [
    ("steps", VList [
       VDict [(PCA, VDict [("n_components", VInt 3)])];
       VDict [("sklearn.pipeline.FeatureUnion", VList [
          VDict [(PCA, VDict [("n_components", VInt 3)])];
          VDict [("sklearn.pipeline.Pipeline", VList [
             VStr MinMaxScaler;
             VDict [(TruncatedSVD, VDict [("n_components", VInt 2)])]])]])];
       VDict [("sklearn.ensemble.RandomForestClassifier",
               VDict [("max_depth", VInt 3)])]])])].

End Demo.

(** ** Notions the properties are stated with *)

(** The items of a sequence (a Definition Sequence is a list; the source
    takes a tuple as well). *)
Definition items (v : val) : option (list val) :=
  match v with
  | VList l | VTuple l => Some l
  | _ => None
  end.

(** The Labeled Children of the objects [objs], labeled by position counting
    from [i]. *)
Fixpoint label_from (i : nat) (objs : list val) : list val :=
  match objs with
  | [] => []
  | o :: rest => VTuple [VStr (label i); o] :: label_from (S i) rest
  end.

(** The run of [params[key] = _build_branch(params[key], None)] followed by
    the call of [StepClass] on the unpacked params (source lines 109, 111 and
    121), for the dict [pd] as params and the run [r] of the branch.  When
    the branch raises, the assignment does not happen and [params[key]] is
    the sequence as the branch left it. *)
Definition assign_and_call (construct : cls -> list val -> dict -> built)
    (import_str : string) (StepClass : option cls) (pd : dict) (key : string)
    (r : run val val) : run val val :=
  match res r with
  | Raise e =>
      Run (VDict [(import_str, VDict (dict_set key (after r) pd))])
          (Locate import_str :: trace r) (Raise e)
  | Ok steps =>
      let params' := dict_set key steps pd in
      Run (VDict [(import_str, VDict params')])
          (Locate import_str
             :: trace r ++ fst (call construct StepClass [] params'))
          (snd (call construct StepClass [] params'))
  end.

(** The run of [return StepClass(_build_branch(params, None))] (source line
    116), for the run [r] of the branch. *)
Definition call_on_branch (construct : cls -> list val -> dict -> built)
    (import_str : string) (StepClass : option cls) (r : run val val)
  : run val val :=
  match res r with
  | Raise e =>
      Run (VDict [(import_str, after r)]) (Locate import_str :: trace r)
          (Raise e)
  | Ok steps =>
      Run (VDict [(import_str, after r)])
          (Locate import_str
             :: trace r ++ fst (call construct StepClass [steps] []))
          (snd (call construct StepClass [steps] []))
  end.

(** [resolves locate construct step o]: the Step Resolver returns [o] on
    [step]. *)
Definition resolves (locate : string -> option cls)
    (construct : cls -> list val -> dict -> built) (step o : val) : Prop :=
  res (_build_step locate construct step) = Ok o.

(** Whether a trace holds a constructor invocation. *)
Definition constructs (tr : list event) : bool := existsb is_call tr.

Definition is_str_or_dict (step : val) : bool :=
  match step with
  | VStr _ | VDict _ => true
  | _ => false
  end.

(** [params] holds neither a recognized children parameter nor a sequence. *)
Definition no_children (params : val) : bool :=
  match params with
  | VDict pd => negb (dict_has "transformer_list" pd || dict_has "steps" pd)
  | VList _ | VTuple _ => false
  | _ => true
  end.

(** The structural violations of a node, with the message that reports
    them. *)
Inductive malformed (locate : string -> option cls) (step : val)
  : message -> Prop :=
| malformed_keys d :
    step = VDict d -> List.length d <> 1 ->
    malformed locate step (SingleKeyExpected (keys d))
| malformed_kind :
    is_str_or_dict step = false ->
    malformed locate step (StringOrDictExpected (type_of step))
| malformed_container import_str params :
    step = VDict [(import_str, params)] ->
    is_container (locate import_str) = true ->
    no_children params = true ->
    malformed locate step (InvalidParameters (locate import_str) params).

(** The three violations as the specification lists them: more than one key,
    neither string nor mapping, container without children. *)
Definition listed_violation (locate : string -> option cls) (step : val)
  : Prop :=
  (exists d, step = VDict d /\ 1 < List.length d)
  \/ is_str_or_dict step = false
  \/ (exists import_str params,
        step = VDict [(import_str, params)]
        /\ is_container (locate import_str) = true
        /\ no_children params = true).

(** [visits step n]: translating [step] may call the Step Resolver on [n]:
    on [step] itself, on the items of a sequence of children, and so on
    below them. *)
Inductive visits : val -> val -> Prop :=
| visits_here step : visits step step
| visits_item import_str params l child n :
    items params = Some l -> In child l -> visits child n ->
    visits (VDict [(import_str, params)]) n
| visits_param import_str pd key seq l child n :
    key = "transformer_list" \/ key = "steps" ->
    dict_get key pd = Some seq -> items seq = Some l -> In child l ->
    visits child n ->
    visits (VDict [(import_str, VDict pd)]) n.

(** The size of a value, for induction on definitions. *)
Fixpoint size (v : val) : nat :=
  match v with
  | VList l | VTuple l => S (list_sum (map size l))
  | VDict d => S (list_sum (map (fun kv => size (snd kv)) d))
  | VObj _ args kwargs =>
      S (list_sum (map size args)
         + list_sum (map (fun kv => size (snd kv)) kwargs))
  | _ => 1
  end.

(** The label of a Labeled Child. *)
Definition child_label (child : val) : option string :=
  match child with
  | VTuple [VStr s; _] => Some s
  | _ => None
  end.

(** The type name a node names: a bare name itself, the only key of a
    mapping. *)
Definition root_name (step : val) : option string :=
  match step with
  | VStr s => Some s
  | VDict [(import_str, _)] => Some import_str
  | _ => None
  end.

(** [positional locate step]: the containers of [step] that the translation
    reaches take their children as a bare sequence, none under a children
    key. *)
Fixpoint positional (locate : string -> option cls) (step : val) : bool :=
  match step with
  | VDict [(import_str, params)] =>
      if is_container (locate import_str) then
        match params with
        | VList l | VTuple l => forallb (positional locate) l
        | VDict pd =>
            negb (dict_has "transformer_list" pd || dict_has "steps" pd)
        | _ => true
        end
      else true
  | _ => true
  end.

(** [located locate seen tr]: every constructor invoked in [tr] is the class
    the registry gave for a name looked up before the invocation, in [tr] or
    among [seen]. *)
Fixpoint located (locate : string -> option cls) (seen : list string)
    (tr : list event) : Prop :=
  match tr with
  | [] => True
  | Locate name :: rest => located locate (name :: seen) rest
  | Call c _ _ :: rest =>
      (exists name, In name seen /\ locate name = Some c)
      /\ located locate seen rest
  end.

(** [failed_last construct tr e]: the last event of [tr] is a constructor
    invocation, and that invocation raised [e]. *)
Definition failed_last (construct : cls -> list val -> dict -> built)
    (tr : list event) (e : string) : Prop :=
  exists before c args kwargs,
    tr = before ++ [Call c args kwargs]
    /\ construct c args kwargs = Raised e.

(** The exceptions of a subscript that no membership test guards. *)
Definition unguarded (e : exn) : bool :=
  match e with
  | KeyError _ | TypeError (NotSubscriptable _) => true
  | _ => false
  end.

(** [raises_well construct tr r]: when the run with events [tr] and result
    [r] raises, what it raises is guarded and, when it is the error of a
    constructor, the invocation that raised it is the last event. *)
Definition raises_well (construct : cls -> list val -> dict -> built)
    (tr : list event) (r : result val) : Prop :=
  forall e, r = Raise e ->
    unguarded e = false
    /\ forall msg, e = ConstructorError msg -> failed_last construct tr msg.

(** ** Definitions the examples run on *)

Module Examples.

Import Demo.

(** [{"sklearn.pipeline.Pipeline":
      {"steps": ["sklearn.decomposition.PCA"]}}] *)
Definition pipeline_of_pca : val :=
  VDict [("sklearn.pipeline.Pipeline", VDict [("steps", VList [VStr PCA])])].

(** The same definition after one translation. *)
Definition pipeline_of_pca_after : val :=
  VDict [("sklearn.pipeline.Pipeline",
          VDict [("steps",
                  VList [VTuple [VStr "step_0";
                                 VObj (Estimator PCA) [] []]])])].

(** [{"sklearn.ensemble.RandomForestClassifier": None}], what a YAML entry
    [- sklearn.ensemble.RandomForestClassifier:] decodes to. *)
Definition null_params : val :=
  VDict [("sklearn.ensemble.RandomForestClassifier", VNone)].

(** The definition of the docstring as a YAML decoder reads it: the last
    step has no value, and [max_depth] is a key next to [steps]. *)
Definition docstring_config_decoded : val :=
  VDict [("sklearn.pipeline.Pipeline", VDict [
    ("steps", VList [
       VDict [(PCA, VDict [("n_components", VInt 3)])];
       VDict [("sklearn.pipeline.FeatureUnion", VList [
          VDict [(PCA, VDict [("n_components", VInt 3)])];
          VDict [("sklearn.pipeline.Pipeline", VList [
             VStr MinMaxScaler;
             VDict [(TruncatedSVD, VDict [("n_components", VInt 2)])]])]])];
       VDict [("sklearn.ensemble.RandomForestClassifier", VNone)]]);
    ("max_depth", VInt 3)])].

(** The params [{"transformer_list": [], "steps": [PCA]}], with both
    spellings of the children parameter. *)
Definition both_spellings : dict :=
  [("transformer_list", VList []); ("steps", VList [VStr PCA])].

(** A registry that also resolves the name [steps]. *)
Definition locate_steps (import_str : string) : option cls :=
  if String.eqb import_str "steps" then Some (Estimator "steps")
  else locate import_str.

(** [{"sklearn.pipeline.Pipeline": ["steps"]}]: a sequence of one bare name. *)
Definition pipeline_of_steps : val :=
  VDict [("sklearn.pipeline.Pipeline", VList [VStr "steps"])].

(** The second scenario of the specification for containers:
    [{"sklearn.pipeline.FeatureUnion": [{PCA: {}}, MinMaxScaler]}]. *)
Definition union_of_two : val :=
  VDict [("sklearn.pipeline.FeatureUnion",
          VList [VDict [(PCA, VDict [])]; VStr MinMaxScaler])].

(** A constructor that, like those of the estimators of scikit-learn,
    raises on a keyword it does not know: an estimator takes [n_components]
    only. *)
Definition construct_strict (c : cls) (args : list val) (kwargs : dict)
  : built :=
  match c with
  | Estimator _ =>
      if forallb (fun kv => String.eqb (fst kv) "n_components") kwargs
      then Instance (VObj c args kwargs)
      else Raised "__init__() got an unexpected keyword argument"
  | _ => Instance (VObj c args kwargs)
  end.

(** [{"sklearn.pipeline.Pipeline":
      [PCA, {PCA: {"whiten": True}}, MinMaxScaler]}]: the second child has a
    keyword its constructor does not take. *)
Definition pipeline_bad_keyword : val :=
  VDict [("sklearn.pipeline.Pipeline",
          VList [VStr PCA;
                 VDict [(PCA, VDict [("whiten", VBool true)])];
                 VStr MinMaxScaler])].

(** A name the registry does not resolve. *)
Definition unknown_name : string := "numpy.no_such_class".

End Examples.

(** ** Dictionaries *)

(** [step.get(import_str, dict())] on a step whose only key is [import_str]
    is the value under that key, whatever it is: the default is not used. *)
Lemma get_only_key (import_str : string) (params default : val) :
  dict_get_default import_str default [(import_str, params)] = params.
Proof.
  unfold dict_get_default; simpl.
  now rewrite String.eqb_refl.
Qed.

Lemma dict_has_get (key : string) (d : dict) :
  dict_has key d = true <-> exists v, dict_get key d = Some v.
Proof.
  unfold dict_has; destruct (dict_get key d) as [v|].
  - split; [eauto | reflexivity].
  - split; [discriminate | intros [v Hv]; discriminate].
Qed.

Lemma dict_get_set_same (key : string) (v : val) (d : dict) :
  dict_get key (dict_set key v d) = Some v.
Proof.
  induction d as [|[k w] rest IH]; simpl.
  - now rewrite String.eqb_refl.
  - destruct (String.eqb k key) eqn:E; simpl; rewrite E; auto.
Qed.

Lemma dict_get_set_other (key k : string) (v : val) (d : dict) :
  k <> key -> dict_get k (dict_set key v d) = dict_get k d.
Proof.
  intros Hk; induction d as [|[k' w] rest IH]; simpl.
  - destruct (String.eqb key k) eqn:E; [|reflexivity].
    apply String.eqb_eq in E; congruence.
  - destruct (String.eqb k' key) eqn:E; simpl.
    + apply String.eqb_eq in E; subst k'.
      destruct (String.eqb key k) eqn:E'; [|reflexivity].
      apply String.eqb_eq in E'; congruence.
    + now rewrite IH.
Qed.

Lemma keys_dict_set (key : string) (v : val) (d : dict) :
  dict_has key d = true -> keys (dict_set key v d) = keys d.
Proof.
  unfold dict_has, keys.
  induction d as [|[k w] rest IH]; simpl; [discriminate|].
  destruct (String.eqb k key) eqn:E; simpl; [reflexivity|].
  intros H; now rewrite IH.
Qed.

(** ** Labeled children *)

Lemma label_from_length (i : nat) (objs : list val) :
  List.length (label_from i objs) = List.length objs.
Proof.
  revert i; induction objs as [|o rest IH]; intros i; simpl; auto.
Qed.

Lemma label_from_nth (objs : list val) (i j : nat) (o : val) :
  nth_error objs j = Some o ->
  nth_error (label_from i objs) j = Some (VTuple [VStr (label (i + j)); o]).
Proof.
  revert i j; induction objs as [|o' rest IH]; intros i [|j]; simpl;
    try discriminate.
  - intros [= ->]. now rewrite Nat.add_0_r.
  - intros H. rewrite (IH (S i) j H).
    now replace (S i + j) with (i + S j) by lia.
Qed.

Lemma label_from_eq_labeled (i : nat) (o : val) (rest : list val) :
  label_from i (o :: rest) = labeled i o :: label_from (S i) rest.
Proof. reflexivity. Qed.

(** ** The comprehension of [_build_branch] *)

Section ComprehensionFacts.

Context {X : Type}.
Variable build : X -> run X val.

(** When every step yields an object, the comprehension yields their labeled
    children, in order. *)
Lemma comprehension_built (l : list X) (objs : list val) (i : nat) :
  Forall2 (fun step o => res (build step) = Ok o) l objs ->
  res (comprehension build i l) = Ok (label_from i objs).
Proof.
  intros H; revert i.
  induction H as [|step o l objs Hstep _ IH]; intros i; simpl.
  - reflexivity.
  - rewrite Hstep; simpl. now rewrite IH.
Qed.

(** What the comprehension returns is the labeled children of the objects
    its steps yielded. *)
Lemma comprehension_returns (l : list X) (i : nat) (steps : list val) :
  res (comprehension build i l) = Ok steps ->
  exists objs,
    Forall2 (fun step o => res (build step) = Ok o) l objs
    /\ steps = label_from i objs.
Proof.
  revert i steps; induction l as [|step rest IH]; intros i steps; simpl.
  - intros [= <-]. exists []. split; constructor.
  - destruct (res (build step)) as [o|e] eqn:Hstep; simpl; [|discriminate].
    destruct (res (comprehension build (S i) rest)) as [os|e] eqn:Hrest;
      [|discriminate].
    intros [= <-].
    destruct (IH _ _ Hrest) as (objs & Hall & ->).
    exists (o :: objs). split; [now constructor | reflexivity].
Qed.

(** An exception of the comprehension is the exception of one of its
    steps. *)
Lemma comprehension_raises (l : list X) (i : nat) (e : exn) :
  res (comprehension build i l) = Raise e ->
  exists step, In step l /\ res (build step) = Raise e.
Proof.
  revert i; induction l as [|step rest IH]; intros i; simpl; [discriminate|].
  destruct (res (build step)) as [o|e'] eqn:Hstep; simpl.
  - destruct (res (comprehension build (S i) rest)) as [os|e'] eqn:Hrest;
      [discriminate|].
    intros [= ->]. destruct (IH _ Hrest) as (s & Hin & Hs). eauto.
  - intros [= ->]. eauto.
Qed.

End ComprehensionFacts.

(** ** The branches of the translator *)

Section Branches.

Variable locate : string -> option cls.
Variable construct : cls -> list val -> dict -> built.

Lemma branch_at_get (key : string) (pd : dict) :
  branch_at locate construct (_build_step locate construct) key pd
  = option_map (fun seq => _build_branch locate construct seq None)
      (dict_get key pd).
Proof.
  induction pd as [|[k v] rest IH]; simpl; [reflexivity|].
  destruct (String.eqb k key); [reflexivity | exact IH].
Qed.

(** A call raises no [ValueError]. *)
Lemma call_no_value_error (StepClass : option cls) (args : list val)
    (kwargs : dict) (m : message) :
  snd (call construct StepClass args kwargs) <> Raise (ValueError m).
Proof.
  destruct StepClass as [c|]; simpl; [|discriminate].
  destruct (construct c args kwargs); discriminate.
Qed.

(** A bare name raises no [ValueError]. *)
Lemma build_name_no_value_error (s : string) (m : message) :
  res (build_name locate construct s) <> Raise (ValueError m).
Proof.
  unfold build_name.
  pose proof (@call_no_value_error (locate s) [] [] m) as H.
  destruct (call construct (locate s) [] []) as [ev r]; exact H.
Qed.

(** The branch of a sequence whose items all resolve. *)
Lemma build_branch_items (definition : val) (l objs : list val) :
  items definition = Some l ->
  Forall2 (resolves locate construct) l objs ->
  res (_build_branch locate construct definition None)
  = Ok (VList (label_from 0 objs))
  /\ forall c,
       res (_build_branch locate construct definition (Some c))
       = returned (construct c [VList (label_from 0 objs)] [])
       /\ trace (_build_branch locate construct definition (Some c))
          = trace (_build_branch locate construct definition None)
            ++ [Call c [VList (label_from 0 objs)] []].
Proof.
  intros Hitems Hall.
  pose proof (comprehension_built (_build_step locate construct) 0 Hall)
    as Hres.
  unfold _build_branch, build_branch_with.
  destruct definition; simpl in Hitems; try discriminate;
    injection Hitems as ->; simpl; rewrite Hres; simpl; auto.
Qed.

(** What the Branch Builder returns on a sequence is the list of the Labeled
    Children of the objects its items resolve to. *)
Lemma build_branch_returns (definition : val) (l : list val) (v : val) :
  items definition = Some l ->
  res (_build_branch locate construct definition None) = Ok v ->
  exists objs,
    Forall2 (resolves locate construct) l objs
    /\ v = VList (label_from 0 objs).
Proof.
  intros Hitems. unfold _build_branch, build_branch_with.
  destruct definition; simpl in Hitems; try discriminate;
    injection Hitems as ->; simpl;
    destruct (res (comprehension (_build_step locate construct) 0 l))
      as [steps|e] eqn:Hsteps; try discriminate;
    intros [= <-];
    apply comprehension_returns in Hsteps as (objs & Hall & ->); eauto.
Qed.

(** A mapping step of a container class, by the children key found. *)
Lemma build_step_container_dict (import_str : string) (pd : dict) :
  is_container (locate import_str) = true ->
  _build_step locate construct (VDict [(import_str, VDict pd)])
  = match dict_get "transformer_list" pd with
    | Some seq =>
        assign_and_call construct import_str (locate import_str) pd
          "transformer_list" (_build_branch locate construct seq None)
    | None =>
        match dict_get "steps" pd with
        | Some seq =>
            assign_and_call construct import_str (locate import_str) pd
              "steps" (_build_branch locate construct seq None)
        | None =>
            Run (VDict [(import_str, VDict pd)]) [Locate import_str]
              (Raise (ValueError
                        (InvalidParameters (locate import_str) (VDict pd))))
        end
    end.
Proof.
  intros Hc. cbn [_build_step]. rewrite Hc.
  cbn [py_in branch_of_item is_sequence]. unfold dict_has, assign_and_call.
  rewrite !branch_at_get.
  destruct (dict_get "transformer_list" pd) as [seq|]; cbn [option_map].
  { destruct (res (_build_branch locate construct seq None)) as [steps|e];
      [|reflexivity].
    cbn [setitem call_unpacked].
    now destruct (call construct (locate import_str) []
                    (dict_set "transformer_list" steps pd)). }
  destruct (dict_get "steps" pd) as [seq|]; cbn [option_map]; [|reflexivity].
  destruct (res (_build_branch locate construct seq None)) as [steps|e];
    [|reflexivity].
  cbn [setitem call_unpacked].
  now destruct (call construct (locate import_str) []
                  (dict_set "steps" steps pd)).
Qed.

(** A sequence step of a container class in which neither children key is
    an item. *)
Lemma build_step_container_items (import_str : string) (params : val)
    (l : list val) :
  is_container (locate import_str) = true ->
  items params = Some l ->
  existsb (eq_str "transformer_list") l = false ->
  existsb (eq_str "steps") l = false ->
  _build_step locate construct (VDict [(import_str, params)])
  = call_on_branch construct import_str (locate import_str)
      (_build_branch locate construct params None).
Proof.
  intros Hc Hitems H1 H2.
  destruct params; simpl in Hitems; try discriminate;
    injection Hitems as ->; cbn [_build_step]; rewrite Hc;
    cbn [py_in is_sequence]; rewrite H1, H2;
    unfold call_on_branch, _build_branch;
    match goal with
    | |- context [res ?r] =>
        destruct (res r) as [steps|e]; [|reflexivity];
        now destruct (call construct (locate import_str) [steps] [])
    end.
Qed.

(** A sequence step of a container class with a children key among its
    items: the subscript [params[key]] raises. *)
Lemma build_step_container_subscript (import_str : string) (params : val)
    (l : list val) :
  is_container (locate import_str) = true ->
  items params = Some l ->
  existsb (eq_str "transformer_list") l || existsb (eq_str "steps") l
  = true ->
  _build_step locate construct (VDict [(import_str, params)])
  = Run (VDict [(import_str, params)]) [Locate import_str]
      (Raise (TypeError (BadSubscript (type_of params)))).
Proof.
  intros Hc Hitems H.
  destruct params; simpl in Hitems; try discriminate;
    injection Hitems as ->; cbn [_build_step]; rewrite Hc;
    cbn [py_in branch_of_item type_of];
    apply orb_true_iff in H as [H | H]; rewrite H; try reflexivity;
    now destruct (existsb (eq_str "transformer_list") l).
Qed.

(** A step of a container class with a string for params. *)
Lemma build_step_container_str (import_str s : string) :
  is_container (locate import_str) = true ->
  _build_step locate construct (VDict [(import_str, VStr s)])
  = Run (VDict [(import_str, VStr s)]) [Locate import_str]
      (Raise (if occurs "transformer_list" s || occurs "steps" s
              then TypeError (BadSubscript str_t)
              else ValueError
                     (InvalidParameters (locate import_str) (VStr s)))).
Proof.
  intros Hc. cbn [_build_step]. rewrite Hc.
  cbn [py_in branch_of_item is_sequence type_of].
  destruct (occurs "transformer_list" s); [reflexivity|].
  destruct (occurs "steps" s); reflexivity.
Qed.

(** A step of a container class with params on which the membership test
    raises. *)
Lemma build_step_container_scalar (import_str : string) (params : val)
    (e : exn) :
  is_container (locate import_str) = true ->
  py_in "transformer_list" params = Raise e ->
  _build_step locate construct (VDict [(import_str, params)])
  = Run (VDict [(import_str, params)]) [Locate import_str] (Raise e).
Proof.
  intros Hc Hin. cbn [_build_step]. now rewrite Hc, Hin.
Qed.

(** A step of a container class with params that hold neither children key
    and are not a sequence. *)
Lemma build_step_container_invalid (import_str : string) (params : val) :
  is_container (locate import_str) = true ->
  py_in "transformer_list" params = Ok false ->
  py_in "steps" params = Ok false ->
  is_sequence params = false ->
  _build_step locate construct (VDict [(import_str, params)])
  = Run (VDict [(import_str, params)]) [Locate import_str]
      (Raise (ValueError (InvalidParameters (locate import_str) params))).
Proof.
  intros Hc Htl Hst Hseq. cbn [_build_step]. now rewrite Hc, Htl, Hst, Hseq.
Qed.

(** A mapping step of any other class, or of no class. *)
Lemma build_step_leaf (import_str : string) (params : val) :
  is_container (locate import_str) = false ->
  _build_step locate construct (VDict [(import_str, params)])
  = match params with
    | VDict pd =>
        Run (VDict [(import_str, params)])
          (Locate import_str :: fst (call construct (locate import_str) [] pd))
          (snd (call construct (locate import_str) [] pd))
    | _ =>
        Run (VDict [(import_str, params)]) [Locate import_str]
          (Raise (TypeError (KwargsNotMapping (type_of params))))
    end.
Proof.
  intros Hc. cbn [_build_step]. rewrite Hc.
  destruct params; try reflexivity.
  cbn [call_unpacked].
  now destruct (call construct (locate import_str) [] d).
Qed.

(** A bare name. *)
Lemma build_step_name (s : string) :
  _build_step locate construct (VStr s)
  = Run (VStr s) (Locate s :: fst (call construct (locate s) [] []))
      (snd (call construct (locate s) [] [])).
Proof.
  cbn [_build_step]. unfold build_name.
  now destruct (call construct (locate s) [] []).
Qed.

End Branches.

(** ** Branch Builder and Step Resolver: what they return *)

Section Resolver.

Variable locate : string -> option cls.
Variable construct : cls -> list val -> dict -> built.

(** C1.  For a Definition Sequence of [n] items that resolve to the objects
    [objs], the Branch Builder produces exactly [n] Labeled Children; the
    child at position [i] is the pair of the label [step_i] and the object of
    the item at position [i], whatever kind of node the item is.  Without a
    container constructor the list of children is returned; with a
    constructor [c], [c] is invoked last, on that list as its only argument,
    and what it returns or raises is the result. *)
Theorem build_branch_labels (definition : val) (l objs : list val) :
  items definition = Some l ->
  Forall2 (resolves locate construct) l objs ->
  let children := label_from 0 objs in
  List.length children = List.length l
  /\ (forall i o, nth_error objs i = Some o ->
        nth_error children i = Some (VTuple [VStr (label i); o]))
  /\ res (_build_branch locate construct definition None) = Ok (VList children)
  /\ (forall c,
        res (_build_branch locate construct definition (Some c))
        = returned (construct c [VList children] [])
        /\ trace (_build_branch locate construct definition (Some c))
           = trace (_build_branch locate construct definition None)
             ++ [Call c [VList children] []]).
Proof.
  intros Hitems Hall children.
  destruct (build_branch_items definition Hitems Hall) as [Hnone Hsome].
  repeat split.
  - unfold children. rewrite label_from_length.
    symmetry. exact (Forall2_length Hall).
  - intros i o Hi. exact (label_from_nth objs 0 i Hi).
  - exact Hnone.
  - apply Hsome.
  - apply Hsome.
Qed.

(** C4.  When [name] resolves to the class [c]: on the mapping node
    [{name: params}] with [c] not a container and [params] a mapping, the
    Step Resolver invokes [c] once, with [params] as its named arguments and
    no positional argument, and returns what [c] returned; on the bare name
    [name] it invokes [c] once with no argument at all and returns what [c]
    returned. *)
Theorem build_step_constructs (name : string) (c : cls) :
  locate name = Some c ->
  (forall params : dict,
      is_container (Some c) = false ->
      _build_step locate construct (VDict [(name, VDict params)])
      = Run (VDict [(name, VDict params)])
          [Locate name; Call c [] params]
          (returned (construct c [] params)))
  /\ _build_step locate construct (VStr name)
     = Run (VStr name) [Locate name; Call c [] []]
         (returned (construct c [] [])).
Proof.
  intros Hloc. split.
  - intros params Hleaf.
    rewrite build_step_leaf by now rewrite Hloc.
    now rewrite Hloc.
  - rewrite build_step_name. now rewrite Hloc.
Qed.

(** C5.  When the registry does not resolve [name]: on the bare name
    [name], and on every mapping node whose only key is [name], the Step
    Resolver raises Python's [TypeError], the node is left as it was, and
    the run consists of the one lookup: no constructor is invoked.  The
    source has no exception class of its own for an unresolved name: the
    error is that of calling the [None] that [locate] returned or, on a
    mapping node whose value is not a mapping, that of unpacking the value
    for the call. *)
Theorem build_step_unresolved (name : string) :
  locate name = None ->
  _build_step locate construct (VStr name)
  = Run (VStr name) [Locate name] (Raise (TypeError NotCallable))
  /\ forall params : val,
       _build_step locate construct (VDict [(name, params)])
       = Run (VDict [(name, params)]) [Locate name]
           (Raise (TypeError
                     match params with
                     | VDict _ => NotCallable
                     | _ => KwargsNotMapping (type_of params)
                     end))
       /\ constructs
            (trace (_build_step locate construct (VDict [(name, params)])))
          = false.
Proof.
  intros Hloc. split.
  - rewrite build_step_name. now rewrite Hloc.
  - intros params.
    rewrite build_step_leaf by now rewrite Hloc.
    rewrite Hloc. destruct params; split; reflexivity.
Qed.

(** C10.  On the empty mapping the Step Resolver raises the [ValueError] of
    the single-key test, reporting the empty key set, and its run is empty:
    no registry lookup and no constructor invocation precede it.  The test
    is on the number of keys not being one: it rejects the mapping with no
    key as it rejects the mappings with several. *)
Theorem build_step_empty_mapping :
  _build_step locate construct (VDict [])
  = Run (VDict []) [] (Raise (ValueError (SingleKeyExpected [])))
  /\ forall d : dict,
       List.length d <> 1 ->
       _build_step locate construct (VDict d)
       = Run (VDict d) [] (Raise (ValueError (SingleKeyExpected (keys d)))).
Proof.
  split; [reflexivity|].
  intros [|[k v] [|kv rest]] Hlen.
  - reflexivity.
  - now destruct Hlen.
  - reflexivity.
Qed.

End Resolver.

(** ** Containers: the children parameter and the bare sequence *)

Section Containers.

Variable locate : string -> option cls.
Variable construct : cls -> list val -> dict -> built.

(** The run of a container node whose children parameter is under [key]:
    the result, the events, and the state the node is left in. *)
Lemma build_step_children_run (import_str : string) (c : cls) (pd : dict)
    (key : string) (seq : val) (l objs : list val) :
  locate import_str = Some c ->
  is_container (Some c) = true ->
  key = "transformer_list"
  \/ (key = "steps" /\ dict_has "transformer_list" pd = false) ->
  dict_get key pd = Some seq ->
  items seq = Some l ->
  Forall2 (resolves locate construct) l objs ->
  let params' := dict_set key (VList (label_from 0 objs)) pd in
  _build_step locate construct (VDict [(import_str, VDict pd)])
  = Run (VDict [(import_str, VDict params')])
      (Locate import_str
         :: trace (_build_branch locate construct seq None)
            ++ [Call c [] params'])
      (returned (construct c [] params')).
Proof.
  intros Hloc Hc Hkey Hget Hitems Hall params'.
  destruct (build_branch_items seq Hitems Hall) as [Hres _].
  rewrite build_step_container_dict by now rewrite Hloc.
  assert (Hrun : assign_and_call construct import_str (locate import_str) pd
                   key (_build_branch locate construct seq None)
                 = Run (VDict [(import_str, VDict params')])
                     (Locate import_str
                        :: trace (_build_branch locate construct seq None)
                           ++ [Call c [] params'])
                     (returned (construct c [] params'))).
  { unfold assign_and_call. rewrite Hres, Hloc. reflexivity. }
  destruct Hkey as [-> | [-> Habsent]].
  - now rewrite Hget.
  - unfold dict_has in Habsent.
    destruct (dict_get "transformer_list" pd); [discriminate|].
    now rewrite Hget.
Qed.

(** C2, amended.  On a mapping node whose key resolves to a container [c]
    and whose params mapping holds a sequence of children under
    ['transformer_list'], or under ['steps'] while ['transformer_list'] is
    not a key, the Step Resolver puts the raw list of Labeled Children built
    from that sequence in the place of the sequence, leaves every other
    parameter and the order of the keys as they were, and invokes [c] last,
    with all params as named arguments and no positional argument; what [c]
    returns or raises is the result.  The two spellings differ only in that
    ['transformer_list'] comes first. *)
Theorem build_step_children_param (import_str : string) (c : cls) (pd : dict)
    (key : string) (seq : val) (l objs : list val) :
  locate import_str = Some c ->
  is_container (Some c) = true ->
  key = "transformer_list"
  \/ (key = "steps" /\ dict_has "transformer_list" pd = false) ->
  dict_get key pd = Some seq ->
  items seq = Some l ->
  Forall2 (resolves locate construct) l objs ->
  let params' := dict_set key (VList (label_from 0 objs)) pd in
  res (_build_step locate construct (VDict [(import_str, VDict pd)]))
  = returned (construct c [] params')
  /\ trace (_build_step locate construct (VDict [(import_str, VDict pd)]))
     = Locate import_str
       :: trace (_build_branch locate construct seq None)
          ++ [Call c [] params']
  /\ dict_get key params' = Some (VList (label_from 0 objs))
  /\ (forall k, k <> key -> dict_get k params' = dict_get k pd)
  /\ keys params' = keys pd.
Proof.
  intros Hloc Hc Hkey Hget Hitems Hall params'.
  rewrite (build_step_children_run pd Hloc Hc Hkey Hget Hitems Hall).
  repeat split.
  - apply dict_get_set_same.
  - intros k Hk. now apply dict_get_set_other.
  - apply keys_dict_set. apply dict_has_get. eauto.
Qed.

(** On a node whose key resolves to a container [c] and whose value is a
    sequence with neither children key among its items, the sequence is the
    Definition Sequence of the children: [c] is invoked last, with the list
    of Labeled Children as its only argument. *)
Lemma build_step_sequence (import_str : string) (c : cls) (params : val)
    (l objs : list val) :
  locate import_str = Some c ->
  is_container (Some c) = true ->
  items params = Some l ->
  existsb (eq_str "transformer_list") l = false ->
  existsb (eq_str "steps") l = false ->
  Forall2 (resolves locate construct) l objs ->
  res (_build_step locate construct (VDict [(import_str, params)]))
  = returned (construct c [VList (label_from 0 objs)] [])
  /\ trace (_build_step locate construct (VDict [(import_str, params)]))
     = Locate import_str :: trace (_build_branch locate construct params None)
       ++ [Call c [VList (label_from 0 objs)] []].
Proof.
  intros Hloc Hc Hitems H1 H2 Hall.
  destruct (build_branch_items params Hitems Hall) as [Hres _].
  rewrite build_step_container_items with (l := l); auto;
    [|now rewrite Hloc].
  unfold call_on_branch. rewrite Hres, Hloc. split; reflexivity.
Qed.

(** On a mapping node of a class that is not a container, a value that is
    not a mapping is unpacked as it is: the default of
    [step.get(import_str, dict())] does not stand in for it. *)
Lemma build_step_not_mapping (import_str : string) (params : val) :
  is_container (locate import_str) = false ->
  (forall pd, params <> VDict pd) ->
  _build_step locate construct (VDict [(import_str, params)])
  = Run (VDict [(import_str, params)]) [Locate import_str]
      (Raise (TypeError (KwargsNotMapping (type_of params)))).
Proof.
  intros Hc Hnot. rewrite build_step_leaf by assumption.
  destruct params; try reflexivity. now destruct (Hnot d).
Qed.

End Containers.

(** ** Where a [ValueError] comes from *)

Lemma size_item (l : list val) (child : val) :
  In child l -> size child < S (list_sum (map size l)).
Proof.
  induction l as [|x rest IH]; simpl; [tauto|].
  intros [-> | Hin]; [lia | specialize (IH Hin); lia].
Qed.

Lemma size_value (d : dict) (key : string) (v : val) :
  dict_get key d = Some v ->
  size v < S (list_sum (map (fun kv => size (snd kv)) d)).
Proof.
  induction d as [|[k w] rest IH]; simpl; [discriminate|].
  destruct (String.eqb k key).
  - intros [= ->]. lia.
  - intros H. specialize (IH H). lia.
Qed.

Lemma size_items (seq : val) (l : list val) (child : val) :
  items seq = Some l -> In child l -> size child < size seq.
Proof.
  destruct seq; simpl; try discriminate;
    intros [= ->] Hin; now apply size_item.
Qed.

Section Origin.

Variable locate : string -> option cls.
Variable construct : cls -> list val -> dict -> built.

(** A [ValueError] of the Branch Builder is the [ValueError] of the Step
    Resolver on an item of the sequence. *)
Lemma build_branch_value_error (seq : val) (ctor : option cls) (m : message) :
  res (_build_branch locate construct seq ctor) = Raise (ValueError m) ->
  exists l child,
    items seq = Some l /\ In child l
    /\ res (_build_step locate construct child) = Raise (ValueError m).
Proof.
  unfold _build_branch, build_branch_with.
  destruct (res (enumerate_steps locate construct
                   (_build_step locate construct) seq))
    as [steps|e] eqn:Hsteps.
  - destruct ctor as [c|]; simpl; [|discriminate].
    destruct (construct c [VList steps] []); discriminate.
  - simpl. intros [= ->].
    destruct seq; simpl in Hsteps; try discriminate.
    + apply comprehension_raises in Hsteps as (name & _ & Hname).
      exfalso. eapply build_name_no_value_error, Hname.
    + apply comprehension_raises in Hsteps as (child & Hin & Hchild).
      exists l, child. auto.
    + apply comprehension_raises in Hsteps as (child & Hin & Hchild).
      exists l, child. auto.
    + apply comprehension_raises in Hsteps as (name & _ & Hname).
      exfalso. eapply build_name_no_value_error, Hname.
Qed.

Lemma assign_and_call_value_error (import_str : string)
    (StepClass : option cls) (pd : dict) (key : string) (r : run val val)
    (m : message) :
  res (assign_and_call construct import_str StepClass pd key r)
  = Raise (ValueError m) ->
  res r = Raise (ValueError m).
Proof.
  unfold assign_and_call. destruct (res r) as [steps|e]; simpl.
  - intros H. exfalso. eapply call_no_value_error, H.
  - now intros [= ->].
Qed.

Lemma call_on_branch_value_error (import_str : string)
    (StepClass : option cls) (r : run val val) (m : message) :
  res (call_on_branch construct import_str StepClass r)
  = Raise (ValueError m) ->
  res r = Raise (ValueError m).
Proof.
  unfold call_on_branch. destruct (res r) as [steps|e]; simpl.
  - intros H. exfalso. eapply call_no_value_error, H.
  - now intros [= ->].
Qed.

(** Every [ValueError] of a translation reports a structural violation of a
    node the translation visits. *)
Lemma value_error_origin (n : nat) :
  forall (step : val) (m : message),
    size step <= n ->
    res (_build_step locate construct step) = Raise (ValueError m) ->
    exists node, visits step node /\ malformed locate node m.
Proof.
  induction n as [|n IH]; intros step m Hsize Hres.
  { destruct step; simpl in Hsize; lia. }
  assert (Hkind : is_str_or_dict step = false ->
                  exists node, visits step node /\ malformed locate node m).
  { intros Hk. exists step. split; [constructor|].
    destruct step; try discriminate; cbn in Hres;
      injection Hres as <-; now apply malformed_kind. }
  destruct step as [ | | | |s| | |d| ]; auto.
  - (* a bare name *)
    cbn [_build_step res] in Hres.
    exfalso. eapply build_name_no_value_error, Hres.
  - (* a mapping *)
    destruct d as [|[import_str params] [|kv rest]].
    + cbn in Hres. injection Hres as <-.
      exists (VDict []). split; [constructor|].
      now apply malformed_keys with (d := []).
    + destruct (is_container (locate import_str)) eqn:Hc.
      * destruct params as [ | | | |s|l|l|pd| ];
          try (rewrite build_step_container_scalar
                 with (e := TypeError (NotIterable _)) in Hres
                 by (assumption || reflexivity);
               discriminate).
        -- (* params is a string *)
           rewrite build_step_container_str in Hres by assumption.
           destruct (occurs "transformer_list" s || occurs "steps" s);
             [discriminate|].
           cbn in Hres. injection Hres as <-.
           exists (VDict [(import_str, VStr s)]). split; [constructor|].
           now apply malformed_container.
        -- (* params is a list *)
           destruct (existsb (eq_str "transformer_list") l
                     || existsb (eq_str "steps") l) eqn:Hkeys.
           { rewrite build_step_container_subscript with (l := l) in Hres
               by (assumption || reflexivity).
             discriminate. }
           apply orb_false_iff in Hkeys as [Htl Hst].
           rewrite build_step_container_items with (l := l) in Hres
             by (assumption || reflexivity).
           apply call_on_branch_value_error in Hres.
           apply build_branch_value_error in Hres
             as (l' & child & Hitems & Hin & Hchild).
           destruct (IH child m) as (node & Hvisits & Hbad); auto.
           { pose proof (size_items _ _ Hitems Hin). simpl in *. lia. }
           exists node. split; [|assumption].
           now apply visits_item with (l := l') (child := child).
        -- (* params is a tuple *)
           destruct (existsb (eq_str "transformer_list") l
                     || existsb (eq_str "steps") l) eqn:Hkeys.
           { rewrite build_step_container_subscript with (l := l) in Hres
               by (assumption || reflexivity).
             discriminate. }
           apply orb_false_iff in Hkeys as [Htl Hst].
           rewrite build_step_container_items with (l := l) in Hres
             by (assumption || reflexivity).
           apply call_on_branch_value_error in Hres.
           apply build_branch_value_error in Hres
             as (l' & child & Hitems & Hin & Hchild).
           destruct (IH child m) as (node & Hvisits & Hbad); auto.
           { pose proof (size_items _ _ Hitems Hin). simpl in *. lia. }
           exists node. split; [|assumption].
           now apply visits_item with (l := l') (child := child).
        -- (* params is a mapping *)
           rewrite build_step_container_dict in Hres by assumption.
           assert (Hparam : forall key seq,
                     key = "transformer_list" \/ key = "steps" ->
                     dict_get key pd = Some seq ->
                     res (_build_branch locate construct seq None)
                     = Raise (ValueError m) ->
                     exists node,
                       visits (VDict [(import_str, VDict pd)]) node
                       /\ malformed locate node m).
           { intros key seq Hkey Hget Hbranch.
             apply build_branch_value_error in Hbranch
               as (l' & child & Hitems & Hin & Hchild).
             destruct (IH child m) as (node & Hvisits & Hbad); auto.
             { pose proof (size_items _ _ Hitems Hin).
               pose proof (size_value _ _ Hget). simpl in *. lia. }
             exists node. split; [|assumption].
             now apply visits_param
               with (key := key) (seq := seq) (l := l') (child := child). }
           destruct (dict_get "transformer_list" pd) as [seq|] eqn:Htl.
           { apply assign_and_call_value_error in Hres. eauto. }
           destruct (dict_get "steps" pd) as [seq|] eqn:Hst.
           { apply assign_and_call_value_error in Hres. eauto. }
           cbn in Hres. injection Hres as <-.
           exists (VDict [(import_str, VDict pd)]). split; [constructor|].
           apply malformed_container; auto.
           unfold no_children, dict_has. now rewrite Htl, Hst.
      * rewrite build_step_leaf in Hres by assumption.
        destruct params; try discriminate. simpl in Hres.
        exfalso. eapply call_no_value_error, Hres.
    + cbn in Hres. injection Hres as <-.
      exists (VDict ((import_str, params) :: kv :: rest)).
      split; [constructor|].
      apply malformed_keys with (d := (import_str, params) :: kv :: rest);
        auto. simpl. lia.
Qed.

(** C6, amended.  The Step Resolver raises [ValueError], the source's error
    for a malformed definition, on these structural violations of the node
    it is applied to, before any constructor is invoked: a mapping whose
    number of keys is not one, none as well as several (the error reports
    the keys); a node that is neither a string nor a mapping (the error
    reports its type); a mapping whose key resolves to a container and whose
    params hold neither children parameter, both membership tests being
    false, and are not a sequence (the error reports the class and the
    params).  And every [ValueError] of a translation comes from one of the
    nodes it visits, which has a number of keys other than one, or is
    neither a string nor a mapping, or names a container with neither a
    children parameter nor a sequence. *)
Theorem build_step_value_error :
  (forall d : dict,
      List.length d <> 1 ->
      _build_step locate construct (VDict d)
      = Run (VDict d) [] (Raise (ValueError (SingleKeyExpected (keys d)))))
  /\ (forall step : val,
        is_str_or_dict step = false ->
        _build_step locate construct step
        = Run step []
            (Raise (ValueError (StringOrDictExpected (type_of step)))))
  /\ (forall (import_str : string) (params : val),
        is_container (locate import_str) = true ->
        py_in "transformer_list" params = Ok false ->
        py_in "steps" params = Ok false ->
        is_sequence params = false ->
        _build_step locate construct (VDict [(import_str, params)])
        = Run (VDict [(import_str, params)]) [Locate import_str]
            (Raise (ValueError
                      (InvalidParameters (locate import_str) params))))
  /\ (forall (step : val) (m : message),
        res (_build_step locate construct step) = Raise (ValueError m) ->
        exists node, visits step node /\ malformed locate node m).
Proof.
  repeat split.
  - intros [|[k v] [|kv rest]] Hlen; try reflexivity. now destruct Hlen.
  - intros step Hk. destruct step; try discriminate; reflexivity.
  - intros import_str params Hc Htl Hst Hseq.
    now apply build_step_container_invalid.
  - intros step m. now apply (value_error_origin (n := size step)).
Qed.

End Origin.

(** ** Translating a definition a second time *)

Section Again.

Variable locate : string -> option cls.
Variable construct : cls -> list val -> dict -> built.

(** The Branch Builder on Labeled Children: the first one is a tuple, which
    the Step Resolver rejects. *)
Lemma build_branch_of_children (objs : list val) (ctor : option cls) :
  objs <> [] ->
  res (_build_branch locate construct (VList (label_from 0 objs)) ctor)
  = Raise (ValueError (StringOrDictExpected tuple_t)).
Proof.
  destruct objs as [|o rest]; [congruence|]. intros _. reflexivity.
Qed.

(** After a container node with a non-empty children parameter has been
    translated, the node holds the Labeled Children where the definitions of
    the children were, and translating it again raises. *)
Lemma build_step_again (import_str : string) (c : cls) (pd : dict)
    (key : string) (seq : val) (l objs : list val) :
  locate import_str = Some c ->
  is_container (Some c) = true ->
  key = "transformer_list"
  \/ (key = "steps" /\ dict_has "transformer_list" pd = false) ->
  dict_get key pd = Some seq ->
  items seq = Some l ->
  Forall2 (resolves locate construct) l objs ->
  objs <> [] ->
  res (_build_step locate construct
         (after (_build_step locate construct
                   (VDict [(import_str, VDict pd)]))))
  = Raise (ValueError (StringOrDictExpected tuple_t)).
Proof.
  intros Hloc Hc Hkey Hget Hitems Hall Hne.
  rewrite build_step_children_run
    with (c := c) (key := key) (seq := seq) (l := l) (objs := objs)
    by assumption.
  cbn [after].
  rewrite build_step_container_dict by now rewrite Hloc.
  assert (Hrun : res (assign_and_call construct import_str (locate import_str)
                        (dict_set key (VList (label_from 0 objs)) pd) key
                        (_build_branch locate construct
                           (VList (label_from 0 objs)) None))
                 = Raise (ValueError (StringOrDictExpected tuple_t))).
  { unfold assign_and_call.
    now rewrite (build_branch_of_children None Hne). }
  destruct Hkey as [-> | [-> Habsent]].
  - now rewrite dict_get_set_same.
  - rewrite dict_get_set_other by discriminate.
    unfold dict_has in Habsent.
    destruct (dict_get "transformer_list" pd); [discriminate|].
    now rewrite dict_get_set_same.
Qed.

(** And the node is not left as it was given. *)
Lemma build_step_children_changed (import_str : string) (c : cls) (pd : dict)
    (key : string) (seq : val) (l objs : list val) :
  locate import_str = Some c ->
  is_container (Some c) = true ->
  key = "transformer_list"
  \/ (key = "steps" /\ dict_has "transformer_list" pd = false) ->
  dict_get key pd = Some seq ->
  items seq = Some l ->
  Forall2 (resolves locate construct) l objs ->
  objs <> [] ->
  after (_build_step locate construct (VDict [(import_str, VDict pd)]))
  <> VDict [(import_str, VDict pd)].
Proof.
  intros Hloc Hc Hkey Hget Hitems Hall Hne.
  rewrite build_step_children_run
    with (c := c) (key := key) (seq := seq) (l := l) (objs := objs)
    by assumption.
  cbn [after]. intros [= Hsame].
  pose proof (dict_get_set_same key (VList (label_from 0 objs)) pd) as Hnew.
  rewrite Hsame, Hget in Hnew. injection Hnew as ->.
  injection Hitems as <-.
  destruct objs as [|o rest]; [congruence|].
  inversion Hall as [|step o' l' objs' Hstep _]; subst.
  discriminate Hstep.
Qed.

End Again.

(** ** Runs on the registry of [Demo] *)

Import Examples.

Example label_0 : label 0 = "step_0".
Proof. reflexivity. Qed.

Example label_12 : label 12 = "step_12".
Proof. reflexivity. Qed.

(** The definition of the docstring translates once its last step has a
    mapping for value. *)
Example run_docstring_config :
  exists steps,
    res (Demo.translate Demo.docstring_config)
    = Ok (VObj Pipeline [] [("steps", VList steps)])
    /\ List.length steps = 3.
Proof. eexists. split; reflexivity. Qed.

(** The first scenario of the specification for containers. *)
Example run_pipeline_of_pca :
  res (Demo.translate pipeline_of_pca)
  = Ok (VObj Pipeline []
          [("steps", VList [VTuple [VStr "step_0";
                                    VObj (Estimator Demo.PCA) [] []]])]).
Proof. reflexivity. Qed.

(** The second scenario of the specification for containers. *)
Example run_union_of_two :
  res (Demo.translate union_of_two)
  = Ok (VObj FeatureUnion
          [VList [VTuple [VStr "step_0"; VObj (Estimator Demo.PCA) [] []];
                  VTuple [VStr "step_1";
                          VObj (Estimator Demo.MinMaxScaler) [] []]]]
          []).
Proof. reflexivity. Qed.

Lemma build_branch_labels_witness :
  let objs := [VObj (Estimator Demo.PCA) [] [];
               VObj FeatureUnion
                 [VList [VTuple [VStr "step_0";
                                 VObj (Estimator Demo.PCA) [] []];
                         VTuple [VStr "step_1";
                                 VObj (Estimator Demo.MinMaxScaler) [] []]]]
                 []] in
  res (_build_branch Demo.locate Demo.construct
         (VList [VStr Demo.PCA; union_of_two]) None)
  = Ok (VList (label_from 0 objs)).
Proof.
  intros objs.
  apply (@build_branch_labels Demo.locate Demo.construct
           (VList [VStr Demo.PCA; union_of_two])
           [VStr Demo.PCA; union_of_two] objs).
  - reflexivity.
  - repeat (constructor; [vm_compute; reflexivity|]). constructor.
Defined.

Lemma build_step_constructs_witness :
  Demo.translate (VDict [(Demo.PCA, VDict [("n_components", VInt 3)])])
  = Run (VDict [(Demo.PCA, VDict [("n_components", VInt 3)])])
      [Locate Demo.PCA; Call (Estimator Demo.PCA) [] [("n_components", VInt 3)]]
      (Ok (VObj (Estimator Demo.PCA) [] [("n_components", VInt 3)])).
Proof.
  apply (proj1 (@build_step_constructs Demo.locate Demo.construct Demo.PCA
                  (Estimator Demo.PCA) eq_refl)).
  reflexivity.
Defined.

Lemma build_step_unresolved_witness :
  Demo.translate (VStr "numpy.no_such_class")
  = Run (VStr "numpy.no_such_class") [Locate "numpy.no_such_class"]
      (Raise (TypeError NotCallable)).
Proof.
  apply (@build_step_unresolved Demo.locate Demo.construct
           "numpy.no_such_class").
  reflexivity.
Defined.

Lemma build_step_empty_mapping_witness :
  Demo.translate (VDict [])
  = Run (VDict []) [] (Raise (ValueError (SingleKeyExpected []))).
Proof.
  apply (proj2 (@build_step_empty_mapping Demo.locate Demo.construct) []).
  simpl. lia.
Defined.

Lemma build_step_children_param_witness :
  res (Demo.translate pipeline_of_pca)
  = returned (Demo.construct Pipeline []
                (dict_set "steps"
                   (VList (label_from 0 [VObj (Estimator Demo.PCA) [] []]))
                   [("steps", VList [VStr Demo.PCA])])).
Proof.
  apply (@build_step_children_param Demo.locate Demo.construct
           "sklearn.pipeline.Pipeline" Pipeline
           [("steps", VList [VStr Demo.PCA])] "steps" (VList [VStr Demo.PCA])
           [VStr Demo.PCA] [VObj (Estimator Demo.PCA) [] []]).
  - reflexivity.
  - reflexivity.
  - right. split; reflexivity.
  - reflexivity.
  - reflexivity.
  - repeat (constructor; [vm_compute; reflexivity|]). constructor.
Defined.

Lemma build_step_value_error_witness :
  (exists node,
      visits pipeline_of_pca_after node
      /\ malformed Demo.locate node (StringOrDictExpected tuple_t))
  /\ Demo.translate
       (VDict [(Demo.PCA, VDict []); (Demo.TruncatedSVD, VDict [])])
     = Run (VDict [(Demo.PCA, VDict []); (Demo.TruncatedSVD, VDict [])]) []
         (Raise (ValueError
                   (SingleKeyExpected [Demo.PCA; Demo.TruncatedSVD])))
  /\ Demo.translate (VInt 3)
     = Run (VInt 3) [] (Raise (ValueError (StringOrDictExpected int_t)))
  /\ Demo.translate (VDict [("sklearn.pipeline.Pipeline",
                             VDict [("memory", VNone)])])
     = Run (VDict [("sklearn.pipeline.Pipeline", VDict [("memory", VNone)])])
         [Locate "sklearn.pipeline.Pipeline"]
         (Raise (ValueError
                   (InvalidParameters (Some Pipeline)
                      (VDict [("memory", VNone)])))).
Proof.
  destruct (@build_step_value_error Demo.locate Demo.construct)
    as (Hkeys & Hkind & Hparams & Horigin).
  split; [|split; [|split]].
  - apply Horigin. reflexivity.
  - apply (Hkeys [(Demo.PCA, VDict []); (Demo.TruncatedSVD, VDict [])]).
    simpl. lia.
  - apply Hkind. reflexivity.
  - apply (Hparams "sklearn.pipeline.Pipeline" (VDict [("memory", VNone)]));
      reflexivity.
Defined.

(** C2 as stated fails on params that hold both spellings: ['steps'] is a
    children parameter of the params, its sequence resolves, and yet the
    constructor is invoked with the sequence under ['steps'] as it was given,
    not with the Labeled Children built from it. *)
Lemma steps_beside_transformer_list :
  let node := VDict [("sklearn.pipeline.FeatureUnion", VDict both_spellings)] in
  let obj := VObj (Estimator Demo.PCA) [] [] in
  dict_get "steps" both_spellings = Some (VList [VStr Demo.PCA])
  /\ resolves Demo.locate Demo.construct (VStr Demo.PCA) obj
  /\ res (Demo.translate node) = Ok (VObj FeatureUnion [] both_spellings)
  /\ res (Demo.translate node)
     <> returned (Demo.construct FeatureUnion []
                    (dict_set "steps" (VList (label_from 0 [obj]))
                       both_spellings)).
Proof.
  repeat split. discriminate.
Qed.

(** C6 as stated fails on the empty mapping: the Step Resolver raises
    [ValueError] on it, and it has none of the three violations listed. *)
Lemma value_error_without_listed_violation :
  res (Demo.translate (VDict [])) = Raise (ValueError (SingleKeyExpected []))
  /\ ~ listed_violation Demo.locate (VDict []).
Proof.
  split; [reflexivity|].
  intros [(d & Hd & Hlen) | [Hkind | (k & params & Hd & _)]].
  - injection Hd as <-. simpl in Hlen. lia.
  - discriminate.
  - discriminate.
Qed.

(** C3 at [{"sklearn.pipeline.Pipeline": ["steps"]}].  The value is a
    sequence of one bare name, and the Branch Builder builds its Labeled
    Children where the registry resolves the name; the Step Resolver does not
    get that far: ['steps' in params] holds of the list, the subscript
    [params['steps']] raises [TypeError], and the container is not invoked.
    Where the registry does not resolve the name, the name is not even
    looked up. *)
Theorem sequence_naming_steps :
  items (VList [VStr "steps"]) = Some [VStr "steps"]
  /\ res (_build_branch locate_steps Demo.construct (VList [VStr "steps"]) None)
     = Ok (VList [VTuple [VStr "step_0"; VObj (Estimator "steps") [] []]])
  /\ pipeline_from_definition locate_steps Demo.construct pipeline_of_steps
     = Run pipeline_of_steps [Locate "sklearn.pipeline.Pipeline"]
         (Raise (TypeError (BadSubscript list_t)))
  /\ Demo.translate pipeline_of_steps
     = Run pipeline_of_steps [Locate "sklearn.pipeline.Pipeline"]
         (Raise (TypeError (BadSubscript list_t)))
  /\ trace (_build_branch Demo.locate Demo.construct
              (VList [VStr "steps"]) None)
     = [Locate "steps"].
Proof. repeat split. Qed.

(** C7 at
    [{"sklearn.pipeline.Pipeline": {"steps": ["sklearn.decomposition.PCA"]}}].
    The first translation returns the pipeline and leaves the Labeled
    Children in the definition; the second translation of the definition
    raises [ValueError] on the first of them. *)
Theorem second_translation_raises :
  let first := Demo.translate pipeline_of_pca in
  let second := Demo.translate (after first) in
  res first
  = Ok (VObj Pipeline []
          [("steps", VList [VTuple [VStr "step_0";
                                    VObj (Estimator Demo.PCA) [] []]])])
  /\ res second = Raise (ValueError (StringOrDictExpected tuple_t)).
Proof. split; reflexivity. Qed.

(** C8 at the same definition.  The translation completes, and the
    definition it leaves is not the definition it was given: under ['steps']
    the name of the child has been replaced by its Labeled Child. *)
Theorem translation_rewrites_definition :
  let r := Demo.translate pipeline_of_pca in
  res r
  = Ok (VObj Pipeline []
          [("steps", VList [VTuple [VStr "step_0";
                                    VObj (Estimator Demo.PCA) [] []]])])
  /\ after r = pipeline_of_pca_after
  /\ after r <> pipeline_of_pca.
Proof. repeat split. discriminate. Qed.

(** C9 at [{"sklearn.ensemble.RandomForestClassifier": None}].  The value
    [None] is what is unpacked, which raises [TypeError] before the class is
    invoked; with an empty mapping for value the class is invoked with no
    argument.  The definition of the docstring, as decoded, stops on this. *)
Theorem null_params_unpacked :
  Demo.translate null_params
  = Run null_params [Locate "sklearn.ensemble.RandomForestClassifier"]
      (Raise (TypeError (KwargsNotMapping NoneType)))
  /\ res (Demo.translate
            (VDict [("sklearn.ensemble.RandomForestClassifier", VDict [])]))
     = Ok (VObj (Estimator "sklearn.ensemble.RandomForestClassifier") [] [])
  /\ res (Demo.translate docstring_config_decoded)
     = Raise (TypeError (KwargsNotMapping NoneType)).
Proof. repeat split. Qed.

(** ** The runs of the comprehension *)

Section ComprehensionRuns.

Context {X : Type}.
Variable build : X -> run X val.

(** When every step yields an object, the events of the comprehension are
    the events of its steps, one step after the other, and each step is left
    as its own run leaves it. *)
Lemma comprehension_all (l : list X) (objs : list val) (i : nat) :
  Forall2 (fun step o => res (build step) = Ok o) l objs ->
  trace (comprehension build i l) = flat_map (fun step => trace (build step)) l
  /\ after (comprehension build i l) = map (fun step => after (build step)) l.
Proof.
  intros H; revert i.
  induction H as [|step o l objs Hstep _ IH]; intros i; simpl.
  - split; reflexivity.
  - rewrite Hstep; simpl. destruct (IH (S i)) as [-> ->]. split; reflexivity.
Qed.

(** The comprehension stops at the first step that raises. *)
Lemma comprehension_first_failure (pre : list X) (x : X) (post : list X)
    (objs : list val) (e : exn) (i : nat) :
  Forall2 (fun step o => res (build step) = Ok o) pre objs ->
  res (build x) = Raise e ->
  res (comprehension build i (pre ++ x :: post)) = Raise e
  /\ trace (comprehension build i (pre ++ x :: post))
     = flat_map (fun step => trace (build step)) pre ++ trace (build x)
  /\ after (comprehension build i (pre ++ x :: post))
     = map (fun step => after (build step)) pre ++ after (build x) :: post.
Proof.
  intros H Hx; revert i.
  induction H as [|step o pre objs Hstep _ IH]; intros i; simpl.
  - rewrite Hx; simpl. repeat split.
  - rewrite Hstep; simpl. destruct (IH (S i)) as (-> & -> & ->).
    repeat split. now rewrite app_assoc.
Qed.

(** A comprehension that raises has a first step that raises. *)
Lemma comprehension_raises_split (l : list X) (i : nat) (e : exn) :
  res (comprehension build i l) = Raise e ->
  exists pre x post objs,
    l = pre ++ x :: post
    /\ Forall2 (fun step o => res (build step) = Ok o) pre objs
    /\ res (build x) = Raise e.
Proof.
  revert i; induction l as [|step rest IH]; intros i; simpl; [discriminate|].
  destruct (res (build step)) as [o|e'] eqn:Hstep; simpl.
  - destruct (res (comprehension build (S i) rest)) as [os|e'] eqn:Hrest;
      [discriminate|].
    intros [= ->].
    destruct (IH _ Hrest) as (pre & x & post & objs & -> & Hall & Hx).
    exists (step :: pre), x, post, (o :: objs).
    repeat split; auto.
  - intros [= ->]. exists [], step, rest, []. repeat split; auto.
Qed.

End ComprehensionRuns.

(** ** The labels of a branch *)

Lemma to_uint_not_nil (n : nat) : Nat.to_uint n <> Decimal.Nil.
Proof.
  rewrite <- (Unsigned.of_to n) at 1. rewrite Unsigned.to_of.
  apply DecimalFacts.unorm_nonnil.
Qed.

(** Two positions have the same label only when they are the same. *)
Lemma label_inj (i j : nat) : label i = label j -> i = j.
Proof.
  unfold label. intros H. cbn in H. injection H as H.
  apply Unsigned.to_uint_inj.
  pose proof (NilZero.usu (Nat.to_uint i) (to_uint_not_nil i)) as Hi.
  pose proof (NilZero.usu (Nat.to_uint j) (to_uint_not_nil j)) as Hj.
  rewrite H in Hi. rewrite Hi in Hj. now injection Hj.
Qed.

Lemma label_from_labels (i : nat) (objs : list val) :
  map child_label (label_from i objs)
  = map (fun k => Some (label k)) (seq i (List.length objs)).
Proof.
  revert i; induction objs as [|o rest IH]; intros i; simpl;
    [reflexivity|]. now rewrite IH.
Qed.

Lemma labels_NoDup (i n : nat) :
  NoDup (map (fun k => Some (label k)) (seq i n)).
Proof.
  apply Injective_map_NoDup; [|apply seq_NoDup].
  intros a b H. apply label_inj. congruence.
Qed.

Section Labels.

Variable locate : string -> option cls.
Variable construct : cls -> list val -> dict -> built.

(** Whatever the Branch Builder is given, what it returns without a
    constructor is a list of Labeled Children. *)
Lemma build_branch_returns_children (definition v : val) :
  res (_build_branch locate construct definition None) = Ok v ->
  exists objs, v = VList (label_from 0 objs).
Proof.
  unfold _build_branch, build_branch_with.
  destruct (res (enumerate_steps locate construct
                   (_build_step locate construct) definition))
    as [steps|e] eqn:Hsteps; simpl; [|discriminate].
  intros [= <-].
  destruct definition; simpl in Hsteps; try discriminate;
    apply comprehension_returns in Hsteps as (objs & _ & ->); eauto.
Qed.

(** X1.  In the list the Branch Builder returns, the child at position [k]
    carries the label [step_k], and no two children carry the same label. *)
Theorem branch_labels_distinct (definition v : val) :
  res (_build_branch locate construct definition None) = Ok v ->
  exists children,
    v = VList children
    /\ map child_label children
       = map (fun k => Some (label k)) (seq 0 (List.length children))
    /\ NoDup (map child_label children).
Proof.
  intros H. apply build_branch_returns_children in H as (objs & ->).
  exists (label_from 0 objs). split; [reflexivity|].
  rewrite label_from_labels, label_from_length.
  split; [reflexivity | apply labels_NoDup].
Qed.

End Labels.

(** ** The shapes of a run of the Step Resolver *)

Section Shapes.

Variable locate : string -> option cls.
Variable construct : cls -> list val -> dict -> built.

(** A run of the Step Resolver has one of four shapes: an exception raised
    at the node before any call, a call of what the registry gave for the
    name of the node, the keyword form of a container, the positional form
    of a container. *)
Lemma build_step_cases (step : val) :
  (exists tr e,
      _build_step locate construct step = Run step tr (Raise e)
      /\ (tr = []
          \/ exists name, root_name step = Some name /\ tr = [Locate name])
      /\ unguarded e = false
      /\ (forall s, e <> ConstructorError s))
  \/ (exists name kwargs,
        root_name step = Some name
        /\ _build_step locate construct step
           = Run step
               (Locate name :: fst (call construct (locate name) [] kwargs))
               (snd (call construct (locate name) [] kwargs)))
  \/ (exists import_str pd key seq,
        step = VDict [(import_str, VDict pd)]
        /\ is_container (locate import_str) = true
        /\ (key = "transformer_list" \/ key = "steps")
        /\ dict_get key pd = Some seq
        /\ _build_step locate construct step
           = assign_and_call construct import_str (locate import_str) pd key
               (_build_branch locate construct seq None))
  \/ (exists import_str params l,
        step = VDict [(import_str, params)]
        /\ is_container (locate import_str) = true
        /\ items params = Some l
        /\ _build_step locate construct step
           = call_on_branch construct import_str (locate import_str)
               (_build_branch locate construct params None)).
Proof.
  assert (Hnode : forall tr e,
             _build_step locate construct step = Run step tr (Raise e) ->
             (tr = [] \/ exists name,
                 root_name step = Some name /\ tr = [Locate name]) ->
             unguarded e = false ->
             (forall s, e <> ConstructorError s) ->
             exists tr e,
               _build_step locate construct step = Run step tr (Raise e)
               /\ (tr = [] \/ exists name,
                      root_name step = Some name /\ tr = [Locate name])
               /\ unguarded e = false
               /\ (forall s, e <> ConstructorError s)).
  { intros tr e H1 H2 H3 H4. exists tr, e. auto. }
  destruct step as [ | | | |s|l|l|d|c args kwargs];
    try (left; eapply Hnode;
         [reflexivity | now left | reflexivity | discriminate]).
  - (* a bare name *)
    right; left. exists s, []. split; [reflexivity|]. apply build_step_name.
  - (* a mapping *)
    destruct d as [|[import_str params] [|kv rest]];
      try (left; eapply Hnode;
           [reflexivity | now left | reflexivity | discriminate]).
    assert (Hat : root_name (VDict [(import_str, params)]) = Some import_str)
      by reflexivity.
    destruct (is_container (locate import_str)) eqn:Hc.
    + destruct params as [ | | | |s|l|l|pd|c args kwargs];
        try (left; eapply Hnode;
             [ apply build_step_container_scalar; [assumption | reflexivity]
             | right; eauto | reflexivity | discriminate ]).
      * (* params is a string *)
        left. eapply Hnode.
        -- now apply build_step_container_str.
        -- right; eauto.
        -- now destruct (occurs "transformer_list" s || occurs "steps" s).
        -- now destruct (occurs "transformer_list" s || occurs "steps" s).
      * (* params is a list *)
        destruct (existsb (eq_str "transformer_list") l
                  || existsb (eq_str "steps") l) eqn:Hkeys.
        { left. eapply Hnode.
          - now apply build_step_container_subscript with (l := l).
          - right; eauto.
          - reflexivity.
          - discriminate. }
        apply orb_false_iff in Hkeys as [Htl Hst].
        right; right; right. exists import_str, (VList l), l.
        repeat split; auto.
        now apply build_step_container_items with (l := l).
      * (* params is a tuple *)
        destruct (existsb (eq_str "transformer_list") l
                  || existsb (eq_str "steps") l) eqn:Hkeys.
        { left. eapply Hnode.
          - now apply build_step_container_subscript with (l := l).
          - right; eauto.
          - reflexivity.
          - discriminate. }
        apply orb_false_iff in Hkeys as [Htl Hst].
        right; right; right. exists import_str, (VTuple l), l.
        repeat split; auto.
        now apply build_step_container_items with (l := l).
      * (* params is a mapping *)
        pose proof (@build_step_container_dict locate construct import_str
                      pd Hc) as Hrun.
        destruct (dict_get "transformer_list" pd) as [seq|] eqn:Htl.
        { right; right; left.
          exists import_str, pd, "transformer_list", seq. auto 6. }
        destruct (dict_get "steps" pd) as [seq|] eqn:Hst.
        { right; right; left.
          exists import_str, pd, "steps", seq. auto 6. }
        left. eapply Hnode;
          [exact Hrun | right; eauto | reflexivity | discriminate].
    + pose proof (@build_step_leaf locate construct import_str params Hc)
        as Hrun.
      destruct params as [ | | | |s|l|l|pd|c args kwargs];
        try (left; eapply Hnode;
             [exact Hrun | right; eauto | reflexivity | discriminate]).
      right; left. exists import_str, pd. auto.
Qed.

End Shapes.

(** ** What is called, and what is returned *)

Lemma located_weaken (locate : string -> option cls) (tr : list event) :
  forall seen seen' : list string,
    (forall name, In name seen -> In name seen') ->
    located locate seen tr -> located locate seen' tr.
Proof.
  induction tr as [|[name|c args kwargs] rest IH]; intros seen seen' Hsub;
    simpl; auto.
  - apply IH. intros n [-> | Hn]; [now left | right; auto].
  - intros [(name & Hin & Hname) Hrest]. split; eauto.
Qed.

Lemma located_app (locate : string -> option cls) (tr tr' : list event) :
  forall seen : list string,
    located locate seen tr -> located locate seen tr' ->
    located locate seen (tr ++ tr').
Proof.
  induction tr as [|[name|c args kwargs] rest IH]; intros seen; simpl; auto.
  - intros Hrest Htr'. apply IH; [assumption|].
    apply located_weaken with (seen := seen); [|assumption].
    intros n Hn; now right.
  - intros [Hc Hrest] Htr'. split; auto.
Qed.

Section Calls.

Variable locate : string -> option cls.
Variable construct : cls -> list val -> dict -> built.

(** A call that returns is the call of a class, whose constructor returned
    the object. *)
Lemma call_returns (StepClass : option cls) (args : list val) (kwargs : dict)
    (o : val) :
  snd (call construct StepClass args kwargs) = Ok o ->
  exists c,
    StepClass = Some c
    /\ fst (call construct StepClass args kwargs) = [Call c args kwargs]
    /\ construct c args kwargs = Instance o.
Proof.
  destruct StepClass as [c|]; simpl; [|discriminate].
  destruct (construct c args kwargs) as [o'|e] eqn:Hc; simpl; [|discriminate].
  intros [= ->]. eauto.
Qed.

(** X2.  What the Step Resolver returns is what the constructor of the class
    named by the node itself returned: that class is looked up first and
    invoked last, after everything below the node has been built. *)
Theorem build_step_returns_root (step o : val) :
  res (_build_step locate construct step) = Ok o ->
  exists name c args kwargs tr,
    root_name step = Some name
    /\ locate name = Some c
    /\ trace (_build_step locate construct step)
       = Locate name :: tr ++ [Call c args kwargs]
    /\ construct c args kwargs = Instance o.
Proof.
  intros Hres.
  destruct (build_step_cases locate construct step)
    as [(tr & e & Hrun & _)
       | [(name & kwargs & Hname & Hrun)
         | [(import_str & pd & key & seq & -> & Hc & Hkey & Hget & Hrun)
           | (import_str & params & l & -> & Hc & Hitems & Hrun)]]];
    rewrite Hrun in Hres |- *.
  - discriminate.
  - cbn [res] in Hres. apply call_returns in Hres as (c & Hloc & Hev & Hbuilt).
    exists name, c, [], kwargs, []. cbn [trace]. rewrite Hev. auto.
  - unfold assign_and_call in *.
    destruct (res (_build_branch locate construct seq None)) as [steps|e];
      [|discriminate].
    cbn [res] in Hres. apply call_returns in Hres as (c & Hloc & Hev & Hbuilt).
    exists import_str, c, [], (dict_set key steps pd),
      (trace (_build_branch locate construct seq None)).
    cbn [trace]. rewrite Hev. auto.
  - unfold call_on_branch in *.
    destruct (res (_build_branch locate construct params None))
      as [steps|e]; [|discriminate].
    cbn [res] in Hres. apply call_returns in Hres as (c & Hloc & Hev & Hbuilt).
    exists import_str, c, [steps], [],
      (trace (_build_branch locate construct params None)).
    cbn [trace]. rewrite Hev. auto.
Qed.

(** The events of a call of what the registry gave for [name], after the
    lookup of [name]. *)
Lemma located_call (name : string) (seen : list string) (args : list val)
    (kwargs : dict) :
  located locate (name :: seen)
    (fst (call construct (locate name) args kwargs)).
Proof.
  destruct (locate name) as [c|] eqn:Hloc; simpl; [|exact I].
  split; [|exact I]. exists name. split; [now left | assumption].
Qed.

Lemma located_build_name (s : string) :
  located locate [] (trace (build_name locate construct s)).
Proof.
  unfold build_name.
  pose proof (located_call s [] [] []) as H.
  destruct (call construct (locate s) [] []) as [ev r]. exact H.
Qed.

Lemma located_comprehension {X : Type} (build : X -> run X val)
    (l : list X) :
  Forall (fun x => located locate [] (trace (build x))) l ->
  forall i, located locate [] (trace (comprehension build i l)).
Proof.
  induction 1 as [|x rest Hx _ IH]; intros i; simpl; [exact I|].
  destruct (res (build x)); simpl; [|assumption].
  apply located_app; auto.
Qed.

Lemma located_branch (seq : val) :
  (forall l child, items seq = Some l -> In child l ->
     located locate [] (trace (_build_step locate construct child))) ->
  located locate [] (trace (_build_branch locate construct seq None)).
Proof.
  intros Hitems.
  assert (Hsteps : located locate []
                     (trace (enumerate_steps locate construct
                               (_build_step locate construct) seq))).
  { destruct seq; simpl; try exact I;
      apply located_comprehension; apply Forall_forall; intros x Hx;
      try apply located_build_name;
      eapply Hitems; eauto; reflexivity. }
  unfold _build_branch, build_branch_with.
  now destruct (res (enumerate_steps locate construct
                       (_build_step locate construct) seq)).
Qed.

Lemma located_step (n : nat) :
  forall step : val,
    size step <= n ->
    located locate [] (trace (_build_step locate construct step)).
Proof.
  induction n as [|n IH]; intros step Hsize.
  { destruct step; simpl in Hsize; lia. }
  assert (Hcall : forall name tr args kwargs,
             located locate [] tr ->
             located locate []
               (Locate name
                  :: tr ++ fst (call construct (locate name) args kwargs))).
  { intros name tr args kwargs Htr. cbn [located].
    apply located_app; [|apply located_call].
    apply located_weaken with (seen := []); [|assumption].
    intros x []. }
  destruct (build_step_cases locate construct step)
    as [(tr & e & Hrun & Htr & _)
       | [(name & kwargs & Hname & Hrun)
         | [(import_str & pd & key & seq & -> & Hc & Hkey & Hget & Hrun)
           | (import_str & params & l & -> & Hc & Hitems & Hrun)]]];
    rewrite Hrun.
  - destruct Htr as [-> | (name & _ & ->)]; exact I.
  - apply (Hcall name [] [] kwargs). exact I.
  - assert (Hbranch : located locate []
                        (trace (_build_branch locate construct seq None))).
    { apply located_branch. intros l child Hitems Hin. apply IH.
      pose proof (size_items _ _ Hitems Hin).
      pose proof (size_value _ _ Hget). simpl in *. lia. }
    unfold assign_and_call.
    destruct (res (_build_branch locate construct seq None)) as [steps|e];
      cbn [trace].
    + now apply Hcall.
    + cbn [located]. apply located_weaken with (seen := []); [|assumption].
      intros x [].
  - assert (Hbranch : located locate []
                        (trace (_build_branch locate construct params None))).
    { apply located_branch. intros l' child Hitems' Hin. apply IH.
      pose proof (size_items _ _ Hitems' Hin). simpl in *. lia. }
    unfold call_on_branch.
    destruct (res (_build_branch locate construct params None))
      as [steps|e]; cbn [trace].
    + now apply Hcall.
    + cbn [located]. apply located_weaken with (seen := []); [|assumption].
      intros x [].
Qed.

(** X3.  Whatever the definition, every constructor the translation invokes
    is the class the registry gave for a name that the translation looked up
    before the invocation. *)
Theorem pipeline_calls_located (pipe_definition : val) :
  located locate []
    (trace (pipeline_from_definition locate construct pipe_definition)).
Proof.
  unfold pipeline_from_definition.
  now apply (located_step (n := size pipe_definition)).
Qed.

End Calls.

(** ** The exceptions of a translation *)

Lemma failed_last_app (construct : cls -> list val -> dict -> built)
    (before tr : list event) (e : string) :
  failed_last construct tr e -> failed_last construct (before ++ tr) e.
Proof.
  intros (pre & c & args & kwargs & -> & Hc).
  exists (before ++ pre), c, args, kwargs. now rewrite app_assoc.
Qed.

Section Exceptions.

Variable locate : string -> option cls.
Variable construct : cls -> list val -> dict -> built.

(** A call raises for calling [None], or what the constructor raised. *)
Lemma call_raises (StepClass : option cls) (args : list val) (kwargs : dict)
    (e : exn) :
  snd (call construct StepClass args kwargs) = Raise e ->
  e = TypeError NotCallable
  \/ exists s,
       e = ConstructorError s
       /\ failed_last construct (fst (call construct StepClass args kwargs)) s.
Proof.
  destruct StepClass as [c|]; simpl.
  - destruct (construct c args kwargs) as [o|s] eqn:Hc; simpl; [discriminate|].
    intros [= <-]. right. exists s. split; [reflexivity|].
    exists [], c, args, kwargs. auto.
  - intros [= <-]. now left.
Qed.

Lemma build_name_raises (s : string) (e : exn) :
  res (build_name locate construct s) = Raise e ->
  unguarded e = false
  /\ forall msg, e = ConstructorError msg ->
       failed_last construct (trace (build_name locate construct s)) msg.
Proof.
  unfold build_name.
  pose proof (@call_raises (locate s) [] [] e) as H.
  destruct (call construct (locate s) [] []) as [ev r]. cbn in *.
  intros Hr. destruct (H Hr) as [-> | (msg & -> & Hlast)].
  - split; [reflexivity | discriminate].
  - split; [reflexivity|]. intros msg' [= <-].
    now apply failed_last_app with (before := [Locate s]).
Qed.

Lemma comprehension_raises_well {X : Type} (build : X -> run X val)
    (l : list X) (i : nat) (e : exn) :
  (forall x, In x l ->
     raises_well construct (trace (build x)) (res (build x))) ->
  res (comprehension build i l) = Raise e ->
  unguarded e = false
  /\ forall msg, e = ConstructorError msg ->
       failed_last construct (trace (comprehension build i l)) msg.
Proof.
  intros Hall Hres.
  destruct (@comprehension_raises_split _ build l i e Hres)
    as (pre & x & post & objs & -> & Hpre & Hx).
  destruct (@comprehension_first_failure _ build pre x post objs e i Hpre Hx)
    as (_ & -> & _).
  destruct (Hall x (in_elt x pre post) e Hx) as [Hguard Hlast].
  split; [assumption|]. intros msg Hmsg.
  apply failed_last_app. auto.
Qed.

Lemma branch_raises_well (seq : val) (ctor : option cls) :
  (forall l child, items seq = Some l -> In child l ->
     raises_well construct (trace (_build_step locate construct child))
       (res (_build_step locate construct child))) ->
  raises_well construct (trace (_build_branch locate construct seq ctor))
    (res (_build_branch locate construct seq ctor)).
Proof.
  intros Hitems e.
  unfold _build_branch, build_branch_with.
  destruct (res (enumerate_steps locate construct
                   (_build_step locate construct) seq))
    as [steps|e'] eqn:Hsteps.
  - destruct ctor as [c|]; cbn [res trace]; [|discriminate].
    pose proof (@call_raises (Some c) [VList steps] [] e) as H.
    destruct (call construct (Some c) [VList steps] []) as [ev r].
    cbn in *. intros Hr. destruct (H Hr) as [-> | (msg & -> & Hlast)].
    + split; [reflexivity | discriminate].
    + split; [reflexivity|]. intros msg' [= <-].
      now apply failed_last_app.
  - cbn [res trace]. intros [= <-].
    destruct seq; simpl in Hsteps |- *;
      try (injection Hsteps as <-; split; [reflexivity | discriminate]).
    + eapply comprehension_raises_well; [|exact Hsteps].
      intros x _ e0. apply build_name_raises.
    + eapply comprehension_raises_well; [|exact Hsteps].
      intros x Hx. now apply (Hitems l).
    + eapply comprehension_raises_well; [|exact Hsteps].
      intros x Hx. now apply (Hitems l).
    + eapply comprehension_raises_well; [|exact Hsteps].
      intros x _ e0. apply build_name_raises.
Qed.

Lemma step_raises_well (n : nat) :
  forall step : val,
    size step <= n ->
    raises_well construct (trace (_build_step locate construct step))
      (res (_build_step locate construct step)).
Proof.
  induction n as [|n IH]; intros step Hsize.
  { destruct step; simpl in Hsize; lia. }
  assert (Hcall : forall name tr args kwargs,
             raises_well construct
               (Locate name
                  :: tr ++ fst (call construct (locate name) args kwargs))
               (snd (call construct (locate name) args kwargs))).
  { intros name tr args kwargs e He.
    destruct (call_raises _ _ _ He) as [-> | (msg & -> & Hlast)].
    - split; [reflexivity | discriminate].
    - split; [reflexivity|]. intros msg' [= <-].
      apply failed_last_app with (before := Locate name :: tr). exact Hlast. }
  assert (Hprop : forall name tr r,
             raises_well construct tr r ->
             raises_well construct (Locate name :: tr) r).
  { intros name tr r Hr e He. destruct (Hr e He) as [Hg Hl].
    split; [assumption|]. intros msg Hmsg.
    apply failed_last_app with (before := [Locate name]). auto. }
  destruct (build_step_cases locate construct step)
    as [(tr & e & Hrun & Htr & Hguard & Hnot)
       | [(name & kwargs & Hname & Hrun)
         | [(import_str & pd & key & seq & -> & Hc & Hkey & Hget & Hrun)
           | (import_str & params & l & -> & Hc & Hitems & Hrun)]]];
    rewrite Hrun.
  - cbn [trace res]. intros e' [= <-]. split; [assumption|].
    intros msg Hmsg. now destruct (Hnot msg).
  - apply (Hcall name [] [] kwargs).
  - assert (Hbranch : raises_well construct
                        (trace (_build_branch locate construct seq None))
                        (res (_build_branch locate construct seq None))).
    { apply branch_raises_well. intros l child Hitems Hin. apply IH.
      pose proof (size_items _ _ Hitems Hin).
      pose proof (size_value _ _ Hget). simpl in *. lia. }
    unfold assign_and_call.
    destruct (res (_build_branch locate construct seq None)) as [steps|e];
      cbn [trace res].
    + apply Hcall.
    + now apply Hprop.
  - assert (Hbranch : raises_well construct
                        (trace (_build_branch locate construct params None))
                        (res (_build_branch locate construct params None))).
    { apply branch_raises_well. intros l' child Hitems' Hin. apply IH.
      pose proof (size_items _ _ Hitems' Hin). simpl in *. lia. }
    unfold call_on_branch.
    destruct (res (_build_branch locate construct params None))
      as [steps|e]; cbn [trace res].
    + apply Hcall.
    + now apply Hprop.
Qed.

(** X4.  When a translation ends on the error of a constructor, the error
    is the one the constructor raised, and the invocation that raised it is
    the last event of the translation: nothing is looked up or invoked
    after it. *)
Theorem pipeline_constructor_error (pipe_definition : val) (msg : string) :
  res (pipeline_from_definition locate construct pipe_definition)
  = Raise (ConstructorError msg) ->
  failed_last construct
    (trace (pipeline_from_definition locate construct pipe_definition)) msg.
Proof.
  unfold pipeline_from_definition. intros H.
  now apply (step_raises_well (n := size pipe_definition)
               pipe_definition (le_n _) H).
Qed.


End Exceptions.

(** ** What a translation does to the definition *)

Lemma comprehension_after_same {X : Type} (build : X -> run X val)
    (l : list X) :
  Forall (fun x => after (build x) = x) l ->
  forall i, after (comprehension build i l) = l.
Proof.
  induction 1 as [|x rest Hx _ IH]; intros i; simpl; [reflexivity|].
  destruct (res (build x)); simpl; rewrite Hx; [|reflexivity].
  now rewrite IH.
Qed.

Section Definitions.

Variable locate : string -> option cls.
Variable construct : cls -> list val -> dict -> built.

Lemma build_name_after (s : string) :
  after (build_name locate construct s) = s.
Proof.
  unfold build_name. now destruct (call construct (locate s) [] []).
Qed.

(** The Branch Builder leaves the sequence as it was when the Step Resolver
    leaves every item as it was. *)
Lemma build_branch_after_same (seq : val) (ctor : option cls) :
  (forall l child, items seq = Some l -> In child l ->
     after (_build_step locate construct child) = child) ->
  after (_build_branch locate construct seq ctor) = seq.
Proof.
  intros Hitems.
  assert (Hsteps : after (enumerate_steps locate construct
                            (_build_step locate construct) seq) = seq).
  { destruct seq; simpl; try reflexivity;
      f_equal; apply comprehension_after_same; apply Forall_forall;
      intros x Hx; eapply Hitems; eauto; reflexivity. }
  unfold _build_branch, build_branch_with.
  destruct (res (enumerate_steps locate construct
                   (_build_step locate construct) seq)) as [steps|e];
    [|exact Hsteps].
  destruct ctor as [c|]; [|exact Hsteps].
  now destruct (call construct (Some c) [VList steps] []).
Qed.

Lemma positional_after (n : nat) :
  forall step : val,
    size step <= n ->
    positional locate step = true ->
    after (_build_step locate construct step) = step.
Proof.
  induction n as [|n IH]; intros step Hsize Hpos.
  { destruct step; simpl in Hsize; lia. }
  destruct (build_step_cases locate construct step)
    as [(tr & e & Hrun & _)
       | [(name & kwargs & Hname & Hrun)
         | [(import_str & pd & key & seq & -> & Hc & Hkey & Hget & Hrun)
           | (import_str & params & l & -> & Hc & Hitems & Hrun)]]];
    rewrite Hrun; try reflexivity.
  - (* the keyword form is not positional *)
    exfalso. cbn [positional] in Hpos. rewrite Hc in Hpos.
    apply negb_true_iff, orb_false_iff in Hpos as [Htl Hst].
    unfold dict_has in Htl, Hst.
    destruct Hkey as [-> | ->]; rewrite Hget in *; discriminate.
  - assert (Hbranch : after (_build_branch locate construct params None)
                      = params).
    { apply build_branch_after_same. intros l' child Hitems' Hin.
      assert (Hl : l' = l) by congruence. subst l'.
      apply IH.
      - pose proof (size_items _ _ Hitems Hin). simpl in *. lia.
      - cbn [positional] in Hpos. rewrite Hc in Hpos.
        destruct params; simpl in Hitems; try discriminate;
          injection Hitems as ->;
          now apply (proj1 (forallb_forall _ _) Hpos). }
    unfold call_on_branch.
    destruct (res (_build_branch locate construct params None));
      cbn [after]; now rewrite Hbranch.
Qed.

(** X6.  A definition whose containers all take their children as a bare
    sequence is left as it was given, whether the translation returns or
    raises; so translating what is left of it is the same run again. *)
Theorem pipeline_positional_unchanged (pipe_definition : val) :
  positional locate pipe_definition = true ->
  after (pipeline_from_definition locate construct pipe_definition)
  = pipe_definition
  /\ pipeline_from_definition locate construct
       (after (pipeline_from_definition locate construct pipe_definition))
     = pipeline_from_definition locate construct pipe_definition.
Proof.
  intros Hpos. unfold pipeline_from_definition.
  pose proof (positional_after (n := size pipe_definition)
                pipe_definition (le_n _) Hpos) as H.
  split; [exact H | now rewrite H].
Qed.

(** X7.  Whatever a translation does to a node, the node keeps its kind and
    its type name; a params mapping keeps its keys in their order, and the
    value under every key other than the two children keys. *)
Theorem build_step_keeps_keys (step : val) :
  type_of (after (_build_step locate construct step)) = type_of step
  /\ root_name (after (_build_step locate construct step)) = root_name step
  /\ forall import_str pd,
       step = VDict [(import_str, VDict pd)] ->
       exists pd',
         after (_build_step locate construct step)
         = VDict [(import_str, VDict pd')]
         /\ keys pd' = keys pd
         /\ forall key,
              key <> "transformer_list" -> key <> "steps" ->
              dict_get key pd' = dict_get key pd.
Proof.
  destruct (build_step_cases locate construct step)
    as [(tr & e & Hrun & _)
       | [(name & kwargs & Hname & Hrun)
         | [(import_str & pd & key & seq & -> & Hc & Hkey & Hget & Hrun)
           | (import_str & params & l & -> & Hc & Hitems & Hrun)]]];
    rewrite Hrun; cbn [after].
  - repeat split. intros import_str pd ->. exists pd. auto.
  - repeat split. intros import_str pd ->. exists pd. auto.
  - assert (Hset : forall v,
               keys (dict_set key v pd) = keys pd
               /\ forall key',
                    key' <> "transformer_list" -> key' <> "steps" ->
                    dict_get key' (dict_set key v pd) = dict_get key' pd).
    { intros v. split.
      - apply keys_dict_set. apply dict_has_get. eauto.
      - intros key' H1 H2. apply dict_get_set_other.
        destruct Hkey as [-> | ->]; assumption. }
    unfold assign_and_call.
    destruct (res (_build_branch locate construct seq None)) as [steps|e];
      cbn [after]; repeat split;
      intros import_str' pd' [= <- <-]; eexists; split;
      try reflexivity; apply Hset.
  - unfold call_on_branch.
    destruct (res (_build_branch locate construct params None));
      cbn [after]; repeat split;
      intros import_str' pd' [= <- ->]; discriminate.
Qed.

End Definitions.

(** ** The order of a branch *)

Section Order.

Variable locate : string -> option cls.
Variable construct : cls -> list val -> dict -> built.

(** X8.  The Branch Builder resolves the items of a sequence from first to
    last: when they all resolve, its events are the events of the items one
    item after the other, and each item is left as its own translation
    leaves it. *)
Theorem build_branch_in_order (definition : val) (l objs : list val) :
  items definition = Some l ->
  Forall2 (resolves locate construct) l objs ->
  trace (_build_branch locate construct definition None)
  = flat_map (fun step => trace (_build_step locate construct step)) l
  /\ items (after (_build_branch locate construct definition None))
     = Some (map (fun step => after (_build_step locate construct step)) l)
  /\ type_of (after (_build_branch locate construct definition None))
     = type_of definition.
Proof.
  intros Hitems Hall.
  pose proof (comprehension_built (_build_step locate construct) 0 Hall)
    as Hres.
  destruct (@comprehension_all _ (_build_step locate construct) l objs 0 Hall)
    as [Htrace Hafter].
  unfold _build_branch, build_branch_with.
  destruct definition; simpl in Hitems; try discriminate;
    injection Hitems as ->; cbn [enumerate_steps res trace after];
    rewrite Hres; cbn [trace after items type_of];
    rewrite Htrace, Hafter; auto.
Qed.

(** The run of the Branch Builder on a sequence with an item that raises
    after items that resolve. *)
Lemma build_branch_stops (definition : val)
    (pre : list val) (x : val) (post objs : list val) (e : exn)
    (ctor : option cls) :
  items definition = Some (pre ++ x :: post) ->
  Forall2 (resolves locate construct) pre objs ->
  res (_build_step locate construct x) = Raise e ->
  res (_build_branch locate construct definition ctor) = Raise e
  /\ trace (_build_branch locate construct definition ctor)
     = flat_map (fun step => trace (_build_step locate construct step)) pre
       ++ trace (_build_step locate construct x)
  /\ items (after (_build_branch locate construct definition ctor))
     = Some (map (fun step => after (_build_step locate construct step)) pre
             ++ after (_build_step locate construct x) :: post).
Proof.
  intros Hitems Hpre Hx.
  destruct (@comprehension_first_failure _ (_build_step locate construct)
              pre x post objs e 0 Hpre Hx) as (Hres & Htrace & Hafter).
  unfold _build_branch, build_branch_with.
  destruct definition; simpl in Hitems; try discriminate;
    injection Hitems as ->; cbn [enumerate_steps res trace after];
    rewrite Hres; cbn [res trace after items];
    rewrite Htrace, Hafter; auto.
Qed.

(** X9.  The Branch Builder stops at the first item that raises: it raises
    what the item raised, with or without a constructor, which is not
    invoked; the items after it are neither resolved nor touched; the items
    before it stay as their translation left them. *)
Theorem build_branch_first_failure (definition : val)
    (pre : list val) (x : val) (post objs : list val) (e : exn)
    (ctor : option cls) :
  items definition = Some (pre ++ x :: post) ->
  Forall2 (resolves locate construct) pre objs ->
  res (_build_step locate construct x) = Raise e ->
  res (_build_branch locate construct definition ctor) = Raise e
  /\ trace (_build_branch locate construct definition ctor)
     = flat_map (fun step => trace (_build_step locate construct step)) pre
       ++ trace (_build_step locate construct x)
  /\ items (after (_build_branch locate construct definition ctor))
     = Some (map (fun step => after (_build_step locate construct step)) pre
             ++ after (_build_step locate construct x) :: post).
Proof.
  intros Hitems Hpre Hx.
  now apply build_branch_stops with (objs := objs).
Qed.

(** Resolving names one by one is resolving the bare-name nodes of those
    names. *)
Lemma comprehension_names (names : list string) (i : nat) :
  res (comprehension (build_name locate construct) i names)
  = res (comprehension (_build_step locate construct) i (map VStr names))
  /\ trace (comprehension (build_name locate construct) i names)
     = trace (comprehension (_build_step locate construct) i
                (map VStr names)).
Proof.
  revert i; induction names as [|s rest IH]; intros i; simpl;
    [split; reflexivity|].
  destruct (res (build_name locate construct s)); simpl.
  - destruct (IH (S i)) as [-> ->]. split; reflexivity.
  - split; reflexivity.
Qed.

(** X10.  Given a mapping where a sequence of steps is expected, the Branch
    Builder builds one child per key, each key resolved as a bare name: the
    values under the keys are not read.  Given a string, it builds one child
    per character.  Neither is touched. *)
Theorem build_branch_of_mapping (ctor : option cls) :
  (forall d : dict,
      res (_build_branch locate construct (VDict d) ctor)
      = res (_build_branch locate construct (VList (map VStr (keys d))) ctor)
      /\ trace (_build_branch locate construct (VDict d) ctor)
         = trace (_build_branch locate construct
                    (VList (map VStr (keys d))) ctor)
      /\ after (_build_branch locate construct (VDict d) ctor) = VDict d)
  /\ (forall s : string,
        res (_build_branch locate construct (VStr s) ctor)
        = res (_build_branch locate construct
                 (VList (map VStr (chars s))) ctor)
        /\ trace (_build_branch locate construct (VStr s) ctor)
           = trace (_build_branch locate construct
                      (VList (map VStr (chars s))) ctor)
        /\ after (_build_branch locate construct (VStr s) ctor) = VStr s).
Proof.
  assert (H : forall (definition : val) (names : list string),
             enumerate_steps locate construct (_build_step locate construct)
               definition
             = Run definition
                 (trace (comprehension (build_name locate construct) 0 names))
                 (res (comprehension (build_name locate construct) 0 names)) ->
             res (_build_branch locate construct definition ctor)
             = res (_build_branch locate construct
                      (VList (map VStr names)) ctor)
             /\ trace (_build_branch locate construct definition ctor)
                = trace (_build_branch locate construct
                           (VList (map VStr names)) ctor)
             /\ after (_build_branch locate construct definition ctor)
                = definition).
  { intros definition names Hsteps.
    destruct (comprehension_names names 0) as [Hres Htrace].
    unfold _build_branch, build_branch_with. rewrite Hsteps.
    cbn [enumerate_steps res trace after]. rewrite <- Hres, <- Htrace.
    destruct (res (comprehension (build_name locate construct) 0 names))
      as [steps|e]; [|auto].
    destruct ctor as [c|]; [|auto].
    now destruct (call construct (Some c) [VList steps] []). }
  split; intros x; apply H; reflexivity.
Qed.

End Order.

(** ** A container whose child raises *)

Section ChildFailure.

Variable locate : string -> option cls.
Variable construct : cls -> list val -> dict -> built.

(** X11.  When a child of a container raises, and the children before it
    resolve, the container node raises what the child raised, in the
    positional form and in the keyword form alike: the events stop with the
    events of that child, and the container is not invoked.  In the keyword
    form the children sequence stays under its key, its first children as
    their translation left them. *)
Theorem build_step_child_failure (import_str : string) (c : cls)
    (pre : list val) (x : val) (post objs : list val) (e : exn) :
  locate import_str = Some c ->
  is_container (Some c) = true ->
  Forall2 (resolves locate construct) pre objs ->
  res (_build_step locate construct x) = Raise e ->
  let events :=
    Locate import_str
    :: flat_map (fun step => trace (_build_step locate construct step)) pre
       ++ trace (_build_step locate construct x) in
  (forall params : val,
      items params = Some (pre ++ x :: post) ->
      existsb (eq_str "transformer_list") (pre ++ x :: post) = false ->
      existsb (eq_str "steps") (pre ++ x :: post) = false ->
      res (_build_step locate construct (VDict [(import_str, params)]))
      = Raise e
      /\ trace (_build_step locate construct (VDict [(import_str, params)]))
         = events)
  /\ (forall (pd : dict) (key : string) (seq : val),
        key = "transformer_list"
        \/ (key = "steps" /\ dict_has "transformer_list" pd = false) ->
        dict_get key pd = Some seq ->
        items seq = Some (pre ++ x :: post) ->
        res (_build_step locate construct (VDict [(import_str, VDict pd)]))
        = Raise e
        /\ trace (_build_step locate construct
                    (VDict [(import_str, VDict pd)]))
           = events
        /\ after (_build_step locate construct
                    (VDict [(import_str, VDict pd)]))
           = VDict [(import_str,
                     VDict (dict_set key
                              (after (_build_branch locate construct seq None))
                              pd))]).
Proof.
  intros Hloc Hc Hpre Hx events. split.
  - intros params Hitems Htl Hst.
    destruct (@build_branch_stops locate construct params
                pre x post objs e None Hitems Hpre Hx)
      as (Hres & Htrace & _).
    rewrite build_step_container_items with (l := pre ++ x :: post);
      auto; [|now rewrite Hloc].
    unfold call_on_branch. rewrite Hres. cbn [res trace].
    now rewrite Htrace.
  - intros pd key seq Hkey Hget Hitems.
    destruct (@build_branch_stops locate construct seq
                pre x post objs e None Hitems Hpre Hx)
      as (Hres & Htrace & _).
    rewrite build_step_container_dict by now rewrite Hloc.
    assert (Hrun : assign_and_call construct import_str (locate import_str)
                     pd key (_build_branch locate construct seq None)
                   = Run (VDict [(import_str,
                                  VDict (dict_set key
                                           (after (_build_branch locate
                                                     construct seq None))
                                           pd))])
                       events (Raise e)).
    { unfold assign_and_call. rewrite Hres. unfold events.
      now rewrite Htrace. }
    destruct Hkey as [-> | [-> Habsent]].
    + rewrite Hget, Hrun. auto.
    + unfold dict_has in Habsent.
      destruct (dict_get "transformer_list" pd); [discriminate|].
      rewrite Hget, Hrun. auto.
Qed.

End ChildFailure.

(** ** Further runs on the registry of [Demo] *)

Lemma branch_labels_distinct_witness :
  exists children,
    VList [VTuple [VStr "step_0"; VObj (Estimator Demo.PCA) [] []];
           VTuple [VStr "step_1"; VObj (Estimator Demo.MinMaxScaler) [] []]]
    = VList children
    /\ map child_label children
       = map (fun k => Some (label k)) (seq 0 (List.length children))
    /\ NoDup (map child_label children).
Proof.
  apply (@branch_labels_distinct Demo.locate Demo.construct
           (VList [VStr Demo.PCA; VStr Demo.MinMaxScaler])).
  vm_compute; reflexivity.
Defined.

Lemma build_step_returns_root_witness :
  exists name c args kwargs tr,
    root_name union_of_two = Some name
    /\ Demo.locate name = Some c
    /\ trace (_build_step Demo.locate Demo.construct union_of_two)
       = Locate name :: tr ++ [Call c args kwargs]
    /\ Demo.construct c args kwargs
       = Instance
           (VObj FeatureUnion
              [VList [VTuple [VStr "step_0";
                              VObj (Estimator Demo.PCA) [] []];
                      VTuple [VStr "step_1";
                              VObj (Estimator Demo.MinMaxScaler) [] []]]]
              []).
Proof.
  apply (@build_step_returns_root Demo.locate Demo.construct union_of_two).
  vm_compute; reflexivity.
Defined.

Lemma pipeline_constructor_error_witness :
  failed_last construct_strict
    (trace (pipeline_from_definition Demo.locate construct_strict
              pipeline_bad_keyword))
    "__init__() got an unexpected keyword argument".
Proof.
  apply (@pipeline_constructor_error Demo.locate construct_strict
           pipeline_bad_keyword).
  vm_compute; reflexivity.
Defined.


Lemma pipeline_positional_unchanged_witness :
  after (pipeline_from_definition Demo.locate Demo.construct union_of_two)
  = union_of_two
  /\ pipeline_from_definition Demo.locate Demo.construct
       (after (pipeline_from_definition Demo.locate Demo.construct
                 union_of_two))
     = pipeline_from_definition Demo.locate Demo.construct union_of_two.
Proof.
  apply (@pipeline_positional_unchanged Demo.locate Demo.construct
           union_of_two).
  vm_compute; reflexivity.
Defined.

Lemma build_step_keeps_keys_witness :
  exists pd',
    after (_build_step Demo.locate Demo.construct pipeline_of_pca)
    = VDict [("sklearn.pipeline.Pipeline", VDict pd')]
    /\ keys pd' = keys [("steps", VList [VStr Demo.PCA])]
    /\ forall key,
         key <> "transformer_list" -> key <> "steps" ->
         dict_get key pd' = dict_get key [("steps", VList [VStr Demo.PCA])].
Proof.
  apply (proj2 (proj2 (@build_step_keeps_keys Demo.locate Demo.construct
                         pipeline_of_pca))).
  reflexivity.
Defined.

Lemma build_branch_in_order_witness :
  trace (_build_branch Demo.locate Demo.construct
           (VList [VStr Demo.PCA; union_of_two]) None)
  = flat_map (fun step => trace (_build_step Demo.locate Demo.construct step))
      [VStr Demo.PCA; union_of_two]
  /\ items (after (_build_branch Demo.locate Demo.construct
                     (VList [VStr Demo.PCA; union_of_two]) None))
     = Some (map (fun step =>
                    after (_build_step Demo.locate Demo.construct step))
               [VStr Demo.PCA; union_of_two])
  /\ type_of (after (_build_branch Demo.locate Demo.construct
                       (VList [VStr Demo.PCA; union_of_two]) None))
     = type_of (VList [VStr Demo.PCA; union_of_two]).
Proof.
  apply (@build_branch_in_order Demo.locate Demo.construct
           (VList [VStr Demo.PCA; union_of_two])
           [VStr Demo.PCA; union_of_two]
           [VObj (Estimator Demo.PCA) [] [];
            VObj FeatureUnion
              [VList [VTuple [VStr "step_0";
                              VObj (Estimator Demo.PCA) [] []];
                      VTuple [VStr "step_1";
                              VObj (Estimator Demo.MinMaxScaler) [] []]]]
              []]).
  - reflexivity.
  - repeat (constructor; [vm_compute; reflexivity|]). constructor.
Defined.

Lemma build_branch_first_failure_witness :
  res (_build_branch Demo.locate Demo.construct
         (VList ([VStr Demo.PCA] ++ VStr unknown_name
                   :: [VStr Demo.MinMaxScaler]))
         (Some Pipeline))
  = Raise (TypeError NotCallable)
  /\ trace (_build_branch Demo.locate Demo.construct
              (VList ([VStr Demo.PCA] ++ VStr unknown_name
                        :: [VStr Demo.MinMaxScaler]))
              (Some Pipeline))
     = flat_map (fun step =>
                   trace (_build_step Demo.locate Demo.construct step))
         [VStr Demo.PCA]
       ++ trace (_build_step Demo.locate Demo.construct (VStr unknown_name))
  /\ items (after (_build_branch Demo.locate Demo.construct
                     (VList ([VStr Demo.PCA] ++ VStr unknown_name
                               :: [VStr Demo.MinMaxScaler]))
                     (Some Pipeline)))
     = Some (map (fun step =>
                    after (_build_step Demo.locate Demo.construct step))
               [VStr Demo.PCA]
             ++ after (_build_step Demo.locate Demo.construct
                         (VStr unknown_name))
                :: [VStr Demo.MinMaxScaler]).
Proof.
  apply (@build_branch_first_failure Demo.locate Demo.construct
           (VList ([VStr Demo.PCA] ++ VStr unknown_name
                     :: [VStr Demo.MinMaxScaler]))
           [VStr Demo.PCA] (VStr unknown_name) [VStr Demo.MinMaxScaler]
           [VObj (Estimator Demo.PCA) [] []]
           (TypeError NotCallable) (Some Pipeline)).
  - reflexivity.
  - repeat (constructor; [vm_compute; reflexivity|]). constructor.
  - vm_compute; reflexivity.
Defined.

Lemma build_step_child_failure_witness :
  res (_build_step Demo.locate Demo.construct
         (VDict [("sklearn.pipeline.Pipeline",
                  VList ([VStr Demo.PCA] ++ VStr unknown_name :: []))]))
  = Raise (TypeError NotCallable)
  /\ trace (_build_step Demo.locate Demo.construct
              (VDict [("sklearn.pipeline.Pipeline",
                       VList ([VStr Demo.PCA] ++ VStr unknown_name :: []))]))
     = Locate "sklearn.pipeline.Pipeline"
       :: flat_map (fun step =>
                      trace (_build_step Demo.locate Demo.construct step))
            [VStr Demo.PCA]
          ++ trace (_build_step Demo.locate Demo.construct
                      (VStr unknown_name)).
Proof.
  apply (fun h1 h2 h3 h4 =>
           proj1 (@build_step_child_failure Demo.locate Demo.construct
                    "sklearn.pipeline.Pipeline" Pipeline
                    [VStr Demo.PCA] (VStr unknown_name) []
                    [VObj (Estimator Demo.PCA) [] []] (TypeError NotCallable)
                    h1 h2 h3 h4)).
  - reflexivity.
  - reflexivity.
  - repeat (constructor; [vm_compute; reflexivity|]). constructor.
  - vm_compute; reflexivity.
  - reflexivity.
  - reflexivity.
  - reflexivity.
Defined.
